(** * kubectl-regex-match: selection by name pattern and guarded bulk deletion

    A shallow embedding of package [cmd] of the plugin, in its two revisions:

    - module [RegexMatch]: the revision with the confirmation prompt, the
      [--yes] and [--all-namespaces] flags and the per-item accounting
      (src/unnamed/part_000);
    - module [Regex]: the earlier revision, which deletes while it filters
      (src/pkg/cmd/regex.go).

    The command is a sequence of calls to libraries (client-go, regexp, fmt)
    interleaved with decisions of its own.  The libraries are a parameter of
    the development (classes [Handles] and [Externals]); what the command
    does with them is written out, as a computation in a monad that threads
    the state of the outside world, records every call and every write in a
    trace, and stops at a returned error or at a panic. *)

From Stdlib Require Import List String Ascii ZArith Bool Arith Lia DecimalString.
Import ListNotations.
Open Scope string_scope.
Open Scope Z_scope.

Set Implicit Arguments.

(** ** Strings *)

(** The line feed, written [\n] in the Go source. *)
Definition nl : string := String (ascii_of_nat 10) EmptyString.

(** [%d] of a Go [int]. *)
Definition Itoa (n : Z) : string := NilZero.string_of_int (Z.to_int n).

(** *** strings.ToLower

    Go strings are byte sequences.  [strings.ToLower] scans the bytes: when
    all of them are below [utf8.RuneSelf] it lowers ['A'..'Z'] byte by byte
    (or returns the string itself when there is no upper-case byte);
    otherwise it maps [unicode.ToLower] over the decoded runes, which is left
    to the library ([MapToLower] below). *)

Definition RuneSelf : nat := 128.

Definition isUpperByte (c : ascii) : bool :=
  (65 <=? nat_of_ascii c)%nat && (nat_of_ascii c <=? 90)%nat.

Fixpoint isASCII (s : string) : bool :=
  match s with
  | EmptyString => true
  | String c s' => (nat_of_ascii c <? RuneSelf)%nat && isASCII s'
  end.

Fixpoint hasUpper (s : string) : bool :=
  match s with
  | EmptyString => false
  | String c s' => isUpperByte c || hasUpper s'
  end.

(** [c += 'a' - 'A'] on an upper-case byte. *)
Definition lowerByte (c : ascii) : ascii :=
  if isUpperByte c then ascii_of_nat (nat_of_ascii c + 32) else c.

Fixpoint lowerBytes (s : string) : string :=
  match s with
  | EmptyString => EmptyString
  | String c s' => String (lowerByte c) (lowerBytes s')
  end.

Section ToLower.
(** [strings.Map(unicode.ToLower, s)], reached only for a string with a
    byte at or above [utf8.RuneSelf]. *)
Variable MapToLower : string -> string.

Definition ToLower (s : string) : string :=
  if isASCII s then
    if hasUpper s then lowerBytes s else s
  else MapToLower s.

(** What the command relies on from the Unicode tables: no rune at or above
    [utf8.RuneSelf] has [y] as its lower case, so a string that is not
    plain ASCII is never lowered to ["y"]. *)
Definition NoForeignY : Prop :=
  forall s, isASCII s = false -> MapToLower s <> "y".
End ToLower.

(** ** Errors and results *)

(** The [error] values the command handles.  An error produced by a library is
    identified with its message, which is all the command uses of it ([%v]). *)
Inductive error : Type :=
| LibError (msg : string)
    (** returned by a library call and passed on as it is *)
| UnknownResource (resource : string) (cause : string)
    (** [fmt.Errorf("unknown resource %q: %w", resource, err)] *)
| UnknownOperation (operation : string)
    (** [fmt.Errorf("unknown operation %q", operation)] *)
| Errorf (msg : string)
    (** [fmt.Errorf(msg)] with a constant message *)
| IndexOutOfRange (index len : nat).
    (** the run-time error of [args[index]] on a shorter slice *)

(** A Go pair [(value, err)] of which exactly one is meaningful. *)
Inductive GoResult (A : Type) : Type :=
| Ok (a : A)
| Err (msg : string).
Arguments Ok {A} a.
Arguments Err {A} msg.

(** How a function call ends: with its value, with a returned error, or in a
    panic that unwinds through the caller. *)
Inductive Outcome (A : Type) : Type :=
| Val (a : A)
| Raise (e : error)
| Panic (e : error).
Arguments Val {A} a.
Arguments Raise {A} e.
Arguments Panic {A} e.

(** ** The data of the command *)

(** [schema.GroupVersionResource]. *)
Record GroupVersionResource : Type := GVR {
  Group : string;
  Version : string;
  Resource : string
}.

(** The element type of [matched]: [struct { NS, Name string }]. *)
Record Ref : Type := mkRef {
  NS : string;
  Name : string
}.

(** The package-level flag variables [allNamespaces] and [autoYes], bound by
    [NewRegExCmd] to [--all-namespaces]/[-A] and [--yes]/[-y]. *)
Record Flags : Type := mkFlags {
  allNamespaces : bool;
  autoYes : bool
}.

(** [genericiooptions.IOStreams] has [Out] and [ErrOut] to write to; [Stdout]
    is [os.Stdout], which [fmt.Println] writes to, and [Stderr] is
    [os.Stderr], where cobra prints the error a subcommand returns. *)
Inductive Stream : Type := Out | ErrOut | Stdout | Stderr.

(** The opaque values the libraries hand to the command. *)
Class Handles : Type := {
  World : Type;       (** the cluster, the kubeconfig and the input stream *)
  RestCfg : Type;     (** [*rest.Config] *)
  DynClient : Type;   (** [*dynamic.DynamicClient] *)
  Mapper : Type;      (** [meta.RESTMapper] *)
  Regexp : Type;      (** [*regexp.Regexp] *)
  Item : Type         (** [unstructured.Unstructured] *)
}.

Section Model.
Context {H : Handles}.

(** [dynamic.ResourceInterface] as client-go implements it: the client, the
    resource and a namespace, empty in what [dynClient.Resource(gvr)]
    returns and set in the copy that [.Namespace(ns)] returns. *)
Record ResourceInterface : Type := mkRI {
  client : DynClient;
  resource : GroupVersionResource;
  namespace : string
}.

Definition DynResource (c : DynClient) (gvr : GroupVersionResource)
  : ResourceInterface :=
  {| client := c; resource := gvr; namespace := "" |}.

Definition Namespace (ri : ResourceInterface) (ns : string)
  : ResourceInterface :=
  {| client := client ri; resource := resource ri; namespace := ns |}.

(** What the command does to the outside, in the order it does it: library
    calls with what they returned, the one read of the input stream with
    the token stored, and writes. *)
Inductive Event : Type :=
| EvToRESTConfig (r : GoResult RestCfg)
| EvNewForConfig (cfg : RestCfg) (r : GoResult DynClient)
| EvToRESTMapper (r : GoResult Mapper)
| EvResourceFor (m : Mapper) (name : string) (r : GoResult GroupVersionResource)
| EvNamespace (r : GoResult string)
| EvList (ri : ResourceInterface) (r : GoResult (list Item))
| EvDelete (ri : ResourceInterface) (name : string) (err : option string)
| EvScanln (token : string)
| EvWrite (s : Stream) (text : string).

(** The library functions the command calls.  Those that reach the cluster,
    the configuration or the input stream take the world and return it. *)
Class Externals : Type := {
  (** [regexp.Compile] and [re.MatchString] *)
  Compile : string -> GoResult Regexp;
  MatchString : Regexp -> string -> bool;
  (** [strings.Map(unicode.ToLower, s)], see [ToLower] *)
  MapToLower : string -> string;
  (** [strconv.Quote], which the verb [%q] applies to a string *)
  Quote : string -> string;
  (** [item.GetName()] and [item.GetNamespace()] *)
  GetName : Item -> string;
  GetNamespace : Item -> string;
  (** [kubeFlags.ToRESTConfig()] *)
  ToRESTConfig : World -> GoResult RestCfg * World;
  (** [dynamic.NewForConfig(restCfg)] *)
  NewForConfig : RestCfg -> World -> GoResult DynClient * World;
  (** [kubeFlags.ToRESTMapper()] *)
  ToRESTMapper : World -> GoResult Mapper * World;
  (** [mapper.ResourceFor(schema.GroupVersionResource{Resource: resource})] *)
  ResourceFor : Mapper -> string -> World -> GoResult GroupVersionResource * World;
  (** [kubeFlags.ToRawKubeConfigLoader().Namespace()] *)
  ConfigNamespace : World -> GoResult string * World;
  (** [ri.List(context.Background(), metav1.ListOptions{})], to [list.Items] *)
  List : ResourceInterface -> World -> GoResult (list Item) * World;
  (** [ri.Delete(context.Background(), name, metav1.DeleteOptions{})] *)
  Delete : ResourceInterface -> string -> World -> option string * World;
  (** [fmt.Fscanln(streams.In, &confirm)]: the word left in [confirm], which
      is the first word of the input line (the blanks before it are skipped)
      and is empty when the line has none; the error it returns, as when
      more words follow on the line, is dropped at line 157 *)
  Fscanln : World -> string * World
}.

(** ** The monad of commands *)

Record Run (A : Type) : Type := mkRun {
  result : Outcome A;
  final : World;
  trace : list Event
}.

Definition M (A : Type) : Type := World -> Run A.

Definition ret {A} (a : A) : M A :=
  fun w => mkRun (Val a) w [].

(** [return err] *)
Definition raise {A} (e : error) : M A :=
  fun w => mkRun (Raise e) w [].

(** [panic(err)] *)
Definition panic {A} (e : error) : M A :=
  fun w => mkRun (Panic e) w [].

Definition bind {A B} (m : M A) (k : A -> M B) : M B :=
  fun w =>
    let r := m w in
    match result r with
    | Val a =>
        let r' := k a (final r) in
        mkRun (result r') (final r') (trace r ++ trace r')
    | Raise e => mkRun (Raise e) (final r) (trace r)
    | Panic e => mkRun (Panic e) (final r) (trace r)
    end.

(** A library call: the world moves on and the call is recorded. *)
Definition call {A} (f : World -> A * World) (ev : A -> Event) : M A :=
  fun w => let (a, w') := f w in mkRun (Val a) w' [ev a].

(** [fmt.Fprintf(stream, ...)], [fmt.Fprintln] and [fmt.Println], with the
    formatted text. *)
Definition write (s : Stream) (text : string) : M unit :=
  fun w => mkRun (Val tt) w [EvWrite s text].
End Model.

Declare Scope cmd_scope.
Delimit Scope cmd_scope with cmd.
Notation "x <- m ;; k" := (bind m (fun x => k))
  (at level 61, m at next level, right associativity) : cmd_scope.
Notation "' pat <- m ;; k" := (bind m (fun x => match x with pat => k end))
  (at level 61, pat pattern, m at next level, right associativity) : cmd_scope.
Notation "m ;; k" := (bind m (fun _ => k))
  (at level 61, right associativity) : cmd_scope.
(** [x, err := m; if err != nil { return err }] *)
Notation "x <-? m ;; k" :=
  (bind m (fun r => match r with
                    | Ok x => k
                    | Err msg => raise (LibError msg)
                    end))
  (at level 61, m at next level, right associativity) : cmd_scope.
Open Scope cmd_scope.

(** ** Loops *)

Section Loops.
Context {H : Handles}.

(** [for _, x := range xs { body }] with the variables the body updates
    carried in [s]. *)
Fixpoint rangeLoop {A S : Type} (body : S -> A -> M S) (xs : list A) (s : S)
  : M S :=
  match xs with
  | [] => ret s
  | x :: xs' => s' <- body s x ;; rangeLoop body xs' s'
  end.

(** The same for a body that updates nothing. *)
Definition forEach {A : Type} (xs : list A) (body : A -> M unit) : M unit :=
  rangeLoop (fun _ x => body x) xs tt.
End Loops.

(** ** What both revisions share *)

Section Shared.
Context {H : Handles} {X : Externals}.

(** [ValidateArgs], the [Args] check of both subcommands ([nil] is [None]). *)
Definition ValidateArgs (args : list string) : option error :=
  if (List.length args =? 0)%nat then
    Some (Errorf "resource type must be specified")
  else if (2 <? List.length args)%nat then
    Some (Errorf "too many arguments")
  else None.

(** [var pattern string; if len(args) > 1 { pattern = args[1] }]. *)
Definition patternOf (args : list string) : string :=
  if (1 <? List.length args)%nat then nth 1 args "" else "".

(** The [get] case of [runCmd], the same in both revisions. *)
Definition getCase (re : Regexp) (items : list Item) : M unit :=
  forEach items (fun item =>
    let name := GetName item in
    if MatchString re name then write Stdout (name ++ nl) else ret tt).

(** [err.Error()] for the errors of the command. *)
Definition errorText (e : error) : string :=
  match e with
  | LibError msg => msg
  | UnknownResource resource cause =>
      "unknown resource " ++ Quote resource ++ ": " ++ cause
  | UnknownOperation operation => "unknown operation " ++ Quote operation
  | Errorf msg => msg
  | IndexOutOfRange index len =>
      "runtime error: index out of range [" ++ Itoa (Z.of_nat index)
      ++ "] with length " ++ Itoa (Z.of_nat len)
  end.

(** The status the process exits with: [main] calls [os.Exit(1)] when
    [root.Execute()] returns an error and falls off its end otherwise; a
    panic nobody recovers ends the process in the Go run time, with status
    2. *)
Definition exitStatus {A} (o : Outcome A) : Z :=
  match o with
  | Val _ => 0
  | Raise _ => 1
  | Panic _ => 2
  end.
End Shared.

(** ** The revision with confirmation (src/unnamed/part_000) *)

Module RegexMatch.
Section Cmd.
Context {H : Handles} {X : Externals}.

Definition BuildResourceInterface (flags : Flags) (resource : string)
  : M ResourceInterface :=
  restCfg <-? call ToRESTConfig EvToRESTConfig ;;
  dynClient <-? call (NewForConfig restCfg) (EvNewForConfig restCfg) ;;
  mapper <-? call ToRESTMapper EvToRESTMapper ;;
  r <- call (ResourceFor mapper resource) (EvResourceFor mapper resource) ;;
  match r with
  | Err msg => raise (UnknownResource resource msg)
  | Ok gvkResource =>
      ns <-? call ConfigNamespace EvNamespace ;;
      if (Resource gvkResource =? "nodes")%string
         || (Resource gvkResource =? "namespaces")%string
         || allNamespaces flags
      then ret (DynResource dynClient gvkResource)
      else ret (Namespace (DynResource dynClient gvkResource) ns)
  end.

(** Lines 124-136: the loop that fills [matched]. *)
Definition selectMatched (re : Regexp) (items : list Item) : list Ref :=
  fold_left
    (fun matched item =>
       let name := GetName item in
       let ns := GetNamespace item in
       if MatchString re name then (matched ++ [mkRef ns name])%list else matched)
    items [].

(** Lines 144-151: the header and one line per match. *)
Definition displayLine (m : Ref) : string :=
  if negb (NS m =? "")%string then "  " ++ NS m ++ "/" ++ Name m ++ nl
  else "  " ++ Name m ++ nl.

Definition displayMatches (resource : string) (matched : list Ref) : M unit :=
  write Out ("The following " ++ resource ++ " match your regex:" ++ nl) ;;
  forEach matched (fun m => write Out (displayLine m)).

(** Lines 165-180: the client and the resource, built again. *)
Definition rebuildClient (resource : string)
  : M (DynClient * GroupVersionResource) :=
  restCfg <-? call ToRESTConfig EvToRESTConfig ;;
  dynClient <-? call (NewForConfig restCfg) (EvNewForConfig restCfg) ;;
  mapper <-? call ToRESTMapper EvToRESTMapper ;;
  r <- call (ResourceFor mapper resource) (EvResourceFor mapper resource) ;;
  match r with
  | Err msg => raise (UnknownResource resource msg)
  | Ok gvr => ret (dynClient, gvr)
  end.

(** Lines 189-196: [targetRI] for one match. *)
Definition targetRI (baseRI : ResourceInterface) (m : Ref) : ResourceInterface :=
  if negb (NS m =? "")%string then Namespace baseRI (NS m) else baseRI.

Definition failedLine (m : Ref) (err : string) : string :=
  "Failed to delete " ++ NS m ++ "/" ++ Name m ++ ": " ++ err ++ nl.

Definition deletedLine (m : Ref) : string :=
  "Deleted " ++ NS m ++ "/" ++ Name m ++ nl.

(** Lines 188-205: one turn of the loop over [matched], on the counters
    [(deleted, failed)]. *)
Definition deleteOne (baseRI : ResourceInterface) (counts : Z * Z) (m : Ref)
  : M (Z * Z) :=
  let (deleted, failed) := counts in
  err <- call (Delete (targetRI baseRI m) (Name m))
              (EvDelete (targetRI baseRI m) (Name m)) ;;
  match err with
  | Some e => write ErrOut (failedLine m e) ;; ret (deleted, failed + 1)
  | None => write Out (deletedLine m) ;; ret (deleted + 1, failed)
  end.

Definition summaryLine (deleted failed : Z) : string :=
  nl ++ "✅ " ++ Itoa deleted ++ " deleted, ❌ " ++ Itoa failed ++ " failed." ++ nl.

(** Lines 164-207: what follows the confirmation. *)
Definition deletePhase (resource : string) (matched : list Ref) : M unit :=
  '(dynClient, gvr) <- rebuildClient resource ;;
  let baseRI := DynResource dynClient gvr in
  '(deleted, failed) <- rangeLoop (deleteOne baseRI) matched (0, 0) ;;
  write Out (summaryLine deleted failed).

Definition promptLine (n : nat) : string :=
  nl ++ "Delete all " ++ Itoa (Z.of_nat n) ++ " resources? [y/N]: ".

(** Lines 124-207: the [delete] case. *)
Definition deleteCase (flags : Flags) (resource : string) (re : Regexp)
           (items : list Item) : M unit :=
  let matched := selectMatched re items in
  if (List.length matched =? 0)%nat then
    write Out ("No resources matched your pattern." ++ nl)
  else
    displayMatches resource matched ;;
    if negb (autoYes flags) then
      write Out (promptLine (List.length matched)) ;;
      confirm <- call Fscanln EvScanln ;;
      if negb (ToLower MapToLower confirm =? "y")%string then
        write Out ("Aborted." ++ nl)
      else deletePhase resource matched
    else deletePhase resource matched.

(** Lines 104-112: the accessor, and [list.Items] through it. *)
Definition listItems (flags : Flags) (resource : string) : M (list Item) :=
  ri <- BuildResourceInterface flags resource ;;
  items <-? call (List ri) (EvList ri) ;;
  ret items.

Definition runCmd (flags : Flags) (args : list string) (operation : string)
  : M unit :=
  let pattern := patternOf args in
  match args with
  | [] => panic (IndexOutOfRange 0 0)
  | resource :: _ =>
      match Compile pattern with
      | Err msg => panic (LibError msg)
      | Ok re =>
          items <- listItems flags resource ;;
          if (operation =? "get")%string then getCase re items
          else if (operation =? "delete")%string then deleteCase flags resource re items
          else raise (UnknownOperation operation)
      end
  end.

(** What [root.Execute()] does for a subcommand: the [Args] check, then
    [RunE]; when either returns an error, cobra prints it on [os.Stderr]
    after [Error:] (the root command silences the usage text, not the
    errors) and returns it to [main]. *)
Definition Execute (flags : Flags) (operation : string) (args : list string)
  : M unit :=
  fun w =>
    let r := match ValidateArgs args with
             | Some e => raise e w
             | None => runCmd flags args operation w
             end in
    match result r with
    | Raise e =>
        mkRun (Raise e) (final r)
              (trace r ++ [EvWrite Stderr ("Error: " ++ errorText e ++ nl)])
    | _ => r
    end.
End Cmd.
End RegexMatch.

(** ** The earlier revision (src/pkg/cmd/regex.go) *)

Module Regex.
Section Cmd.
Context {H : Handles} {X : Externals}.

Definition BuildResourceInterface (resource : string) : M ResourceInterface :=
  restCfg <-? call ToRESTConfig EvToRESTConfig ;;
  dynClient <-? call (NewForConfig restCfg) (EvNewForConfig restCfg) ;;
  mapper <-? call ToRESTMapper EvToRESTMapper ;;
  r <- call (ResourceFor mapper resource) (EvResourceFor mapper resource) ;;
  match r with
  | Err msg => raise (UnknownResource resource msg)
  | Ok gvkResource =>
      ns <-? call ConfigNamespace EvNamespace ;;
      if (Resource gvkResource =? "nodes")%string
         || (Resource gvkResource =? "namespaces")%string
      then ret (DynResource dynClient gvkResource)
      else ret (Namespace (DynResource dynClient gvkResource) ns)
  end.

(** Lines 116-125: the [delete] case deletes as it filters, through the
    accessor it listed with. *)
Definition deleteCase (ri : ResourceInterface) (re : Regexp)
           (items : list Item) : M unit :=
  forEach items (fun item =>
    let name := GetName item in
    if MatchString re name then
      err <- call (Delete ri name) (EvDelete ri name) ;;
      match err with
      | Some e => write ErrOut ("Failed to delete " ++ name ++ ": " ++ e ++ nl)
      | None => write Out ("Deleted " ++ name ++ nl)
      end
    else ret tt).

Definition runCmd (args : list string) (operation : string) : M unit :=
  let pattern := patternOf args in
  match args with
  | [] => panic (IndexOutOfRange 0 0)
  | resource :: _ =>
      match Compile pattern with
      | Err msg => panic (LibError msg)
      | Ok re =>
          ri <- BuildResourceInterface resource ;;
          items <-? call (List ri) (EvList ri) ;;
          if (operation =? "get")%string then getCase re items
          else if (operation =? "delete")%string then deleteCase ri re items
          else raise (UnknownOperation operation)
      end
  end.
End Cmd.
End Regex.

(** ** Reading a trace *)

Section Observations.
Context {H : Handles}.

(** The delete calls issued, in order, each with the accessor it went
    through, the name it was given and the error it returned. *)
Fixpoint deleteCalls (tr : list Event)
  : list (ResourceInterface * string * option string) :=
  match tr with
  | [] => []
  | EvDelete ri name err :: tr' => (ri, name, err) :: deleteCalls tr'
  | _ :: tr' => deleteCalls tr'
  end.

(** The tokens read from the input stream. *)
Fixpoint scans (tr : list Event) : list string :=
  match tr with
  | [] => []
  | EvScanln token :: tr' => token :: scans tr'
  | _ :: tr' => scans tr'
  end.

(** The texts written, each with its stream. *)
Fixpoint writes (tr : list Event) : list (Stream * string) :=
  match tr with
  | [] => []
  | EvWrite s text :: tr' => (s, text) :: writes tr'
  | _ :: tr' => writes tr'
  end.

(** A confirmation prompt is a write to [Out] that starts as the format
    string of line 155 does. *)
Definition isPrompt (wr : Stream * string) : bool :=
  match wr with
  | (Out, text) => prefix (nl ++ "Delete all ") text
  | _ => false
  end.

Definition prompts (tr : list Event) : list (Stream * string) :=
  filter isPrompt (writes tr).

(** A trace in which nothing is deleted, read or written. *)
Definition quiet (tr : list Event) : Prop :=
  deleteCalls tr = [] /\ scans tr = [] /\ writes tr = [].

(** A trace in which nothing is read and no prompt is written. *)
Definition unasked (tr : list Event) : Prop :=
  scans tr = [] /\ prompts tr = [].

(** A run that did not end in a panic. *)
Definition unpanicked {A} (r : Run A) : Prop :=
  forall e, result r <> Panic e.

(** A trace whose writes all go to [os.Stdout]. *)
Definition printsOnly (tr : list Event) : Prop :=
  Forall (fun wr => fst wr = Stdout) (writes tr).

(** A trace in which nothing is deleted or read and every write goes to
    [os.Stdout]. *)
Definition readOnly (tr : list Event) : Prop :=
  deleteCalls tr = [] /\ scans tr = [] /\ printsOnly tr.

(** The delete calls that returned an error, and those that did not. *)
Definition isFailure (o : option string) : bool :=
  match o with Some _ => true | None => false end.

Definition failures (outcomes : list (option string)) : Z :=
  Z.of_nat (List.length (filter isFailure outcomes)).

Definition successes (outcomes : list (option string)) : Z :=
  Z.of_nat (List.length (filter (fun o => negb (isFailure o)) outcomes)).
End Observations.

(** What the deletion loop does for one match whose delete call returned
    [o], and what the confirmation step leaves in the trace. *)
Section Expected.
Context {H : Handles} {X : Externals}.

Definition refOf (item : Item) : Ref :=
  mkRef (GetNamespace item) (GetName item).

Definition itemEvents (baseRI : ResourceInterface) (mo : Ref * option string)
  : list Event :=
  let (m, o) := mo in
  [ EvDelete (RegexMatch.targetRI baseRI m) (Name m) o;
    match o with
    | Some e => EvWrite ErrOut (RegexMatch.failedLine m e)
    | None => EvWrite Out (RegexMatch.deletedLine m)
    end ].

Definition displayEvents (resource : string) (matched : list Ref) : list Event :=
  EvWrite Out ("The following " ++ resource ++ " match your regex:" ++ nl)
  :: map (fun m => EvWrite Out (RegexMatch.displayLine m)) matched.

Definition confirmEvents (flags : Flags) (n : nat) (confirm : string)
  : list Event :=
  if autoYes flags then []
  else [EvWrite Out (RegexMatch.promptLine n); EvScanln confirm].

(** The runs that reach the confirmation prompt: [delete] without [--yes],
    with a pattern that compiles to [re] and a listing that succeeds with
    [items], of which at least one matches. *)
Definition MustConfirm (flags : Flags) (args : list string)
           (operation : string) (w : World) (re : Regexp) (items : list Item)
  : Prop :=
  exists name rest,
    args = name :: rest
    /\ operation = "delete"
    /\ autoYes flags = false
    /\ Compile (patternOf args) = Ok re
    /\ result (RegexMatch.listItems flags name w) = Val items
    /\ RegexMatch.selectMatched re items <> [].

(** The confirmation step lets the command through, from world [w1] to
    world [w2]: either [--yes] was given, or [confirm] was read and is
    [y] or [Y]. *)
Definition Confirmed (flags : Flags) (w1 : World) (confirm : string)
           (w2 : World) : Prop :=
  if autoYes flags then w2 = w1
  else Fscanln w1 = (confirm, w2) /\ (confirm = "y" \/ confirm = "Y").
End Expected.

(** ** A small cluster to run the command on *)

Module Demo.
(** Objects of one resource type, the namespace of the current context, the
    lines waiting on the input stream (each without its line feed), the
    number of library calls made so far, the calls (by number) that fail, and
    the names whose deletion the cluster refuses. *)
Record Cluster : Type := mkCluster {
  objects : list Ref;
  ambient : string;
  stdin : list string;
  clock : nat;
  outages : list nat;
  protected : list string
}.

#[local] Instance handles : Handles :=
  {| World := Cluster; RestCfg := unit; DynClient := unit; Mapper := unit;
     Regexp := string; Item := Ref |}.

Definition tick (w : Cluster) : Cluster :=
  {| objects := objects w; ambient := ambient w; stdin := stdin w;
     clock := S (clock w); outages := outages w; protected := protected w |}.

Definition down (w : Cluster) : bool := existsb (Nat.eqb (clock w)) (outages w).

Definition answer {A} (a : GoResult A) (w : Cluster) : GoResult A * Cluster :=
  (if down w then Err "connection refused" else a, tick w).

Definition aliases : list (string * string) :=
  [ ("pods", "pods"); ("pod", "pods"); ("po", "pods");
    ("configmaps", "configmaps"); ("cm", "configmaps");
    ("nodes", "nodes"); ("node", "nodes"); ("no", "nodes");
    ("namespaces", "namespaces"); ("ns", "namespaces") ].

Definition resolve (name : string) : GoResult GroupVersionResource :=
  match find (fun p => (fst p =? name)%string) aliases with
  | Some p => Ok (GVR "" "v1" (snd p))
  | None => Err ("no matches for /, Resource=" ++ name)
  end.

(** A stand-in for the pattern engine: ["("] does not compile, a pattern
    that starts with [^] matches the names that start with the rest, and any
    other pattern matches the names that contain it. *)
Definition compile (pattern : string) : GoResult string :=
  if (pattern =? "(")%string then
    Err "error parsing regexp: missing closing ): `(`"
  else Ok pattern.

Definition matchString (re name : string) : bool :=
  match re with
  | String "^" lit => prefix lit name
  | _ => match index 0 re name with Some _ => true | None => false end
  end.

Definition visible (ri : @ResourceInterface handles) (o : Ref) : bool :=
  (namespace ri =? "")%string || (NS o =? namespace ri)%string.

Definition addressed (ri : @ResourceInterface handles) (name : string) (o : Ref)
  : bool :=
  (NS o =? namespace ri)%string && (Name o =? name)%string.

Definition delete (ri : @ResourceInterface handles) (name : string) (w : Cluster)
  : option string * Cluster :=
  if existsb (String.eqb name) (protected w) then (Some "forbidden", w)
  else if existsb (addressed ri name) (objects w) then
    (None,
     {| objects := filter (fun o => negb (addressed ri name o)) (objects w);
        ambient := ambient w; stdin := stdin w; clock := clock w;
        outages := outages w; protected := protected w |})
  else (Some "not found", w).

(** The blanks of [fmt]'s scanner among the ASCII bytes: the space and the
    bytes from tab to carriage return. *)
Definition isBlank (c : ascii) : bool :=
  (nat_of_ascii c =? 32)%nat
  || ((9 <=? nat_of_ascii c)%nat && (nat_of_ascii c <=? 13)%nat).

Fixpoint skipBlanks (s : string) : string :=
  match s with
  | EmptyString => EmptyString
  | String c s' => if isBlank c then skipBlanks s' else s
  end.

Fixpoint upToBlank (s : string) : string :=
  match s with
  | EmptyString => EmptyString
  | String c s' => if isBlank c then EmptyString else String c (upToBlank s')
  end.

(** What [Fscanln] stores from a line of ASCII text into a string: it skips
    the blanks, then takes the bytes up to the next blank or the end of the
    line.  Anything else on the line makes it return an error, with the word
    already stored. *)
Definition firstWord (line : string) : string := upToBlank (skipBlanks line).

(** [Fscanln] takes one line; at the end of the input it stores nothing. *)
Definition fscanln (w : Cluster) : string * Cluster :=
  match stdin w with
  | [] => ("", w)
  | line :: rest =>
      (firstWord line,
       {| objects := objects w; ambient := ambient w; stdin := rest;
          clock := clock w; outages := outages w; protected := protected w |})
  end.

(** [strconv.Quote] on printable ASCII text without quotes or backslashes. *)
Definition quote (s : string) : string :=
  String (ascii_of_nat 34) (s ++ String (ascii_of_nat 34) EmptyString).

#[local] Instance externals : @Externals handles :=
  {| Compile := compile;
     MatchString := matchString;
     MapToLower := fun s => s;
     Quote := quote;
     GetName := Name;
     GetNamespace := NS;
     ToRESTConfig := answer (Ok tt);
     NewForConfig := fun _ => answer (Ok tt);
     ToRESTMapper := answer (Ok tt);
     ResourceFor := fun _ name => answer (resolve name);
     ConfigNamespace := fun w => answer (Ok (ambient w)) w;
     List := fun ri w => answer (Ok (filter (visible ri) (objects w))) w;
     Delete := delete;
     Fscanln := fscanln |}.

(** Two config maps in [foo] and one in [bar]; the current context is on
    [foo]. *)
Definition cluster (input : list string) (failing : list nat)
           (refused : list string) : Cluster :=
  {| objects := [mkRef "foo" "app-a"; mkRef "foo" "app-b"; mkRef "bar" "web"];
     ambient := "foo"; stdin := input; clock := 0; outages := failing;
     protected := refused |}.

(** Three nodes, which have no namespace. *)
Definition nodes (input : list string) : Cluster :=
  {| objects := [mkRef "" "node-1"; mkRef "" "node-2"; mkRef "" "gpu-1"];
     ambient := "default"; stdin := input; clock := 0; outages := [];
     protected := [] |}.

Definition run (flags : Flags) (args : list string) (operation : string)
           (w : Cluster) : @Run handles unit :=
  @RegexMatch.runCmd handles externals flags args operation w.

(** Three pods in [default]. *)
Definition pods : Cluster :=
  {| objects := [mkRef "default" "nginx-1"; mkRef "default" "nginx-2";
                 mkRef "default" "web-1"];
     ambient := "default"; stdin := []; clock := 0; outages := [];
     protected := [] |}.

(** The accessor of the config maps of a namespace, or of all of them when
    [ns] is empty, and the one of the nodes. *)
Definition configmaps (ns : string) : @ResourceInterface handles :=
  {| client := tt; resource := GVR "" "v1" "configmaps"; namespace := ns |}.

Definition allNodes : @ResourceInterface handles :=
  {| client := tt; resource := GVR "" "v1" "nodes"; namespace := "" |}.
End Demo.

(** * Properties *)

(** ** The monad and the loops *)

Section MonadFacts.
Context {H : Handles}.

Lemma bind_val {A B} (m : M A) (k : A -> M B) w a w' t :
  m w = mkRun (Val a) w' t ->
  bind m k w = mkRun (result (k a w')) (final (k a w')) (t ++ trace (k a w')).
Proof. intros E. unfold bind. rewrite E. reflexivity. Qed.

Lemma bind_raise {A B} (m : M A) (k : A -> M B) w e w' t :
  m w = mkRun (Raise e) w' t -> bind m k w = mkRun (Raise e) w' t.
Proof. intros E. unfold bind. rewrite E. reflexivity. Qed.

Lemma bind_write {B} (s : Stream) (text : string) (k : unit -> M B) w :
  bind (write s text) k w
  = mkRun (result (k tt w)) (final (k tt w)) (EvWrite s text :: trace (k tt w)).
Proof. reflexivity. Qed.

Lemma bind_call {A B} (f : World -> A * World) (ev : A -> Event)
      (k : A -> M B) w a w' :
  f w = (a, w') ->
  bind (call f ev) k w
  = mkRun (result (k a w')) (final (k a w')) (ev a :: trace (k a w')).
Proof. intros E. unfold bind, call. rewrite E. reflexivity. Qed.

Lemma run_eta {A} (r : Run A) : mkRun (result r) (final r) (trace r) = r.
Proof. destruct r; reflexivity. Qed.

Lemma forEach_write {A} (s : Stream) (f : A -> string) (xs : list A) w :
  forEach xs (fun x => write s (f x)) w
  = mkRun (Val tt) w (map (fun x => EvWrite s (f x)) xs).
Proof.
  unfold forEach. induction xs as [|x xs IH]; simpl.
  - reflexivity.
  - unfold bind at 1. simpl. rewrite IH. reflexivity.
Qed.

Lemma deleteCalls_app (a b : list Event) :
  deleteCalls (a ++ b) = (deleteCalls a ++ deleteCalls b)%list.
Proof.
  induction a as [|ev a IH]; simpl; [reflexivity|].
  destruct ev; simpl; rewrite IH; reflexivity.
Qed.

Lemma scans_app (a b : list Event) :
  scans (a ++ b) = (scans a ++ scans b)%list.
Proof.
  induction a as [|ev a IH]; simpl; [reflexivity|].
  destruct ev; simpl; rewrite IH; reflexivity.
Qed.

Lemma writes_app (a b : list Event) :
  writes (a ++ b) = (writes a ++ writes b)%list.
Proof.
  induction a as [|ev a IH]; simpl; [reflexivity|].
  destruct ev; simpl; rewrite IH; reflexivity.
Qed.

Lemma prompts_app (a b : list Event) :
  prompts (a ++ b) = (prompts a ++ prompts b)%list.
Proof. unfold prompts. rewrite writes_app. apply filter_app. Qed.
End MonadFacts.

(** ** The argument check *)

Section Args.
Context {H : Handles} {X : Externals}.

Lemma ValidateArgs_ok (args : list string) :
  ValidateArgs args = None <-> (1 <= List.length args <= 2)%nat.
Proof.
  unfold ValidateArgs.
  destruct (Nat.eqb_spec (List.length args) 0) as [E | NE].
  - split; [discriminate | lia].
  - destruct (Nat.ltb_spec 2 (List.length args)); split;
      try discriminate; try reflexivity; lia.
Qed.

(** Past the check, [runCmd] finds its [args[0]]. *)
Lemma ValidateArgs_nonempty (args : list string) :
  ValidateArgs args = None -> exists name rest, args = name :: rest.
Proof.
  intros V. apply ValidateArgs_ok in V.
  destruct args as [|name rest]; simpl in V; [lia|eauto].
Qed.

(** [root.Execute()] ends as the subcommand does: it only adds the line that
    prints a returned error. *)
Lemma Execute_result flags operation (args : list string) w :
  result (RegexMatch.Execute flags operation args w)
  = result (match ValidateArgs args with
            | Some e => raise e w
            | None => RegexMatch.runCmd flags args operation w
            end).
Proof.
  unfold RegexMatch.Execute. cbv zeta.
  destruct (result (match ValidateArgs args with
                    | Some e => raise e w
                    | None => RegexMatch.runCmd flags args operation w
                    end)) eqn:E; try rewrite E; reflexivity.
Qed.
End Args.

(** ** strings.ToLower against ["y"] *)

Section ToLowerFacts.
Variable mapToLower : string -> string.

Lemma lowerByte_y (c : ascii) :
  lowerByte c = "y"%char -> c = "y"%char \/ c = "Y"%char.
Proof.
  destruct c as [[] [] [] [] [] [] [] []]; vm_compute; intros E;
    try discriminate E; auto.
Qed.

Lemma ToLower_y_ascii (s : string) :
  isASCII s = true ->
  ToLower mapToLower s = "y" -> s = "y" \/ s = "Y".
Proof.
  intros A. unfold ToLower. rewrite A.
  destruct (hasUpper s).
  - destruct s as [|c [|c' s']]; simpl; intros E; try discriminate E.
    injection E as E. apply lowerByte_y in E. destruct E; subst; auto.
  - intros ->. auto.
Qed.

Lemma ToLower_y (s : string) :
  NoForeignY mapToLower ->
  ToLower mapToLower s = "y" -> s = "y" \/ s = "Y".
Proof.
  intros N E. destruct (isASCII s) eqn:A.
  - now apply ToLower_y_ascii.
  - unfold ToLower in E. rewrite A in E. now apply N in E.
Qed.

Lemma ToLower_of_y : ToLower mapToLower "y" = "y".
Proof. reflexivity. Qed.

Lemma ToLower_of_Y : ToLower mapToLower "Y" = "y".
Proof. reflexivity. Qed.
End ToLowerFacts.

(** ** The pieces of [runCmd] *)

Section CmdFacts.
Context {H : Handles} {X : Externals}.

Lemma quiet_app (a b : list Event) : quiet a -> quiet b -> quiet (a ++ b).
Proof.
  unfold quiet. intros (Da & Sa & Wa) (Db & Sb & Wb).
  rewrite deleteCalls_app, scans_app, writes_app, Da, Sa, Wa, Db, Sb, Wb.
  auto.
Qed.

Lemma quiet_bind {A B} (m : M A) (k : A -> M B) w :
  quiet (trace (m w)) ->
  (forall a w', quiet (trace (k a w'))) ->
  quiet (trace (bind m k w)).
Proof.
  intros Qm Qk. unfold bind. destruct (m w) as [[a|e|e] w' t]; simpl in *; auto.
  apply quiet_app; auto.
Qed.

Lemma quiet_call {A} (f : World -> A * World) (ev : A -> Event) w :
  (forall a, quiet [ev a]) -> quiet (trace (call f ev w)).
Proof. intros Q. unfold call. destruct (f w). apply Q. Qed.

Lemma quiet_nil : quiet [].
Proof. repeat split. Qed.

Lemma rebuildClient_quiet resource w :
  quiet (trace (RegexMatch.rebuildClient resource w)).
Proof.
  unfold RegexMatch.rebuildClient.
  repeat (apply quiet_bind;
          [ apply quiet_call; intros; repeat split
          | intros [?|?] ?; try apply quiet_nil ]).
Qed.

Lemma listItems_quiet flags resource w :
  quiet (trace (RegexMatch.listItems flags resource w)).
Proof.
  unfold RegexMatch.listItems, RegexMatch.BuildResourceInterface.
  repeat (apply quiet_bind;
          [ try (apply quiet_call; intros; repeat split)
          | intros; try apply quiet_nil ]);
    repeat (match goal with
            | r : GoResult _ |- _ => destruct r
            | |- context [if ?b then _ else _] => destruct b
            end;
            try apply quiet_nil;
            try (apply quiet_bind;
                 [ apply quiet_call; intros; repeat split | intros ])).
Qed.

Lemma displayMatches_run resource matched w :
  RegexMatch.displayMatches resource matched w
  = mkRun (Val tt) w (displayEvents resource matched).
Proof.
  unfold RegexMatch.displayMatches, displayEvents.
  unfold bind at 1. simpl. rewrite forEach_write. reflexivity.
Qed.

Lemma deleteOne_run baseRI d f m w o w1 :
  Delete (RegexMatch.targetRI baseRI m) (Name m) w = (o, w1) ->
  RegexMatch.deleteOne baseRI (d, f) m w
  = mkRun (Val (match o with
                | Some _ => (d, f + 1)
                | None => (d + 1, f)
                end)) w1 (itemEvents baseRI (m, o)).
Proof.
  intros E. unfold RegexMatch.deleteOne, bind, call. rewrite E.
  destruct o; reflexivity.
Qed.

Lemma failures_cons o outcomes :
  failures (o :: outcomes)
  = (if isFailure o then 1 else 0) + failures outcomes.
Proof.
  unfold failures. simpl filter.
  destruct (isFailure o); [simpl List.length; rewrite Nat2Z.inj_succ|]; lia.
Qed.

Lemma successes_cons o outcomes :
  successes (o :: outcomes)
  = (if isFailure o then 0 else 1) + successes outcomes.
Proof.
  unfold successes. simpl filter.
  destruct (isFailure o); simpl negb; cbv iota;
    [|simpl List.length; rewrite Nat2Z.inj_succ]; lia.
Qed.

Lemma successes_failures outcomes :
  successes outcomes = Z.of_nat (List.length outcomes) - failures outcomes.
Proof.
  induction outcomes as [|o outcomes IH].
  - reflexivity.
  - rewrite successes_cons, failures_cons, IH. simpl List.length.
    rewrite Nat2Z.inj_succ. destruct (isFailure o); lia.
Qed.

(** The loop of lines 188-205 from any counters: it runs to the end of
    [matched], one delete call and one report per match. *)
Lemma deleteLoop_run baseRI matched :
  forall d f w,
  exists outcomes wf,
    List.length outcomes = List.length matched
    /\ rangeLoop (RegexMatch.deleteOne baseRI) matched (d, f) w
       = mkRun (Val (d + successes outcomes, f + failures outcomes)) wf
               (flat_map (itemEvents baseRI) (combine matched outcomes)).
Proof.
  induction matched as [|m matched IH]; intros d f w.
  - exists [], w. split; [reflexivity|]. simpl.
    unfold ret, successes, failures. simpl. now rewrite !Z.add_0_r.
  - destruct (Delete (RegexMatch.targetRI baseRI m) (Name m) w) as [o w1] eqn:E.
    simpl rangeLoop.
    erewrite bind_val by (apply deleteOne_run; exact E).
    destruct o as [e|].
    + destruct (IH d (f + 1) w1) as (outcomes & wf & L & R).
      exists (Some e :: outcomes), wf. split; [simpl; now rewrite L|].
      rewrite R, successes_cons, failures_cons. cbn [result final trace isFailure].
      f_equal. do 2 f_equal; lia.
    + destruct (IH (d + 1) f w1) as (outcomes & wf & L & R).
      exists (None :: outcomes), wf. split; [simpl; now rewrite L|].
      rewrite R, successes_cons, failures_cons. cbn [result final trace isFailure].
      f_equal. do 2 f_equal; lia.
Qed.

Lemma deletePhase_run resource matched w dyn gvr w3 t3 :
  RegexMatch.rebuildClient resource w = mkRun (Val (dyn, gvr)) w3 t3 ->
  exists outcomes wf,
    List.length outcomes = List.length matched
    /\ rangeLoop (RegexMatch.deleteOne (DynResource dyn gvr)) matched (0, 0) w3
       = mkRun (Val (Z.of_nat (List.length matched) - failures outcomes,
                     failures outcomes)) wf
               (flat_map (itemEvents (DynResource dyn gvr))
                         (combine matched outcomes))
    /\ RegexMatch.deletePhase resource matched w
       = mkRun (Val tt) wf
           (t3 ++ flat_map (itemEvents (DynResource dyn gvr))
                           (combine matched outcomes)
               ++ [EvWrite Out (RegexMatch.summaryLine
                                  (Z.of_nat (List.length matched)
                                   - failures outcomes)
                                  (failures outcomes))]).
Proof.
  intros R.
  destruct (deleteLoop_run (DynResource dyn gvr) matched 0 0 w3)
    as (outcomes & wf & L & Loop).
  rewrite !Z.add_0_l, successes_failures, L in Loop.
  exists outcomes, wf. split; [exact L|]. split; [exact Loop|].
  unfold RegexMatch.deletePhase.
  erewrite bind_val by exact R. cbv beta iota zeta.
  erewrite bind_val by exact Loop. reflexivity.
Qed.

Lemma deletePhase_raise resource matched w e :
  result (RegexMatch.rebuildClient resource w) = Raise e ->
  RegexMatch.deletePhase resource matched w
  = mkRun (Raise e) (final (RegexMatch.rebuildClient resource w))
          (trace (RegexMatch.rebuildClient resource w)).
Proof.
  intros R. unfold RegexMatch.deletePhase.
  apply bind_raise. rewrite <- R. symmetry. apply run_eta.
Qed.

Lemma matched_nonempty (matched : list Ref) :
  matched <> [] -> (List.length matched =? 0)%nat = false.
Proof. destruct matched; [congruence|reflexivity]. Qed.

Lemma deleteCase_empty flags resource re items w :
  RegexMatch.selectMatched re items = [] ->
  RegexMatch.deleteCase flags resource re items w
  = mkRun (Val tt) w [EvWrite Out ("No resources matched your pattern." ++ nl)].
Proof. intros E. unfold RegexMatch.deleteCase. rewrite E. reflexivity. Qed.

Lemma deleteCase_aborted flags resource re items w confirm w2 :
  RegexMatch.selectMatched re items <> [] ->
  autoYes flags = false ->
  Fscanln w = (confirm, w2) ->
  ToLower MapToLower confirm <> "y" ->
  RegexMatch.deleteCase flags resource re items w
  = mkRun (Val tt) w2
      (displayEvents resource (RegexMatch.selectMatched re items)
       ++ [EvWrite Out (RegexMatch.promptLine
                          (List.length (RegexMatch.selectMatched re items)));
           EvScanln confirm;
           EvWrite Out ("Aborted." ++ nl)]).
Proof.
  intros NE AY SC NY. unfold RegexMatch.deleteCase. cbv zeta.
  rewrite (matched_nonempty NE), AY. cbn [negb].
  erewrite bind_val by apply displayMatches_run.
  apply String.eqb_neq in NY.
  rewrite bind_write. erewrite !bind_call by exact SC. cbn [result final trace].
  rewrite NY. reflexivity.
Qed.

Lemma deleteCase_confirmed flags resource re items w confirm w2 :
  RegexMatch.selectMatched re items <> [] ->
  Confirmed flags w confirm w2 ->
  RegexMatch.deleteCase flags resource re items w
  = let matched := RegexMatch.selectMatched re items in
    let d := RegexMatch.deletePhase resource matched w2 in
    mkRun (result d) (final d)
          (displayEvents resource matched
           ++ confirmEvents flags (List.length matched) confirm
           ++ trace d).
Proof.
  intros NE C. unfold RegexMatch.deleteCase, Confirmed, confirmEvents in *.
  cbv zeta. rewrite (matched_nonempty NE).
  erewrite bind_val by apply displayMatches_run.
  destruct (autoYes flags); cbn [negb].
  - subst w2. reflexivity.
  - destruct C as (SC & Y).
    assert (L : (ToLower MapToLower confirm =? "y")%string = true)
      by (destruct Y; subst confirm; reflexivity).
    rewrite bind_write. erewrite !bind_call by exact SC. cbn [result final trace].
    rewrite L. reflexivity.
Qed.

Lemma runCmd_delete flags resource rest re items w w1 t1 :
  Compile (patternOf (resource :: rest)) = Ok re ->
  RegexMatch.listItems flags resource w = mkRun (Val items) w1 t1 ->
  RegexMatch.runCmd flags (resource :: rest) "delete" w
  = let c := RegexMatch.deleteCase flags resource re items w1 in
    mkRun (result c) (final c) (t1 ++ trace c).
Proof.
  intros C L. unfold RegexMatch.runCmd. cbv zeta. rewrite C.
  erewrite bind_val by exact L. reflexivity.
Qed.
End CmdFacts.

(** Runs the library call at the head of the command in the goal: names what
    it returned and the world it left, and splits on a returned error. *)
Ltac step_call :=
  match goal with
  | |- context [bind (call ?f ?ev) ?k ?w] =>
      let r := fresh "r" in
      let w' := fresh "w" in
      let E := fresh "E" in
      destruct (f w) as [r w'] eqn:E;
      erewrite !bind_call by exact E;
      cbn [result final trace];
      lazymatch type of r with
      | GoResult _ => destruct r
      | _ => idtac
      end
  end.

(** ** Scope resolution *)

Section Scope.
Context {H : Handles} {X : Externals}.

(** [BuildResourceInterface] returns an accessor only after its five
    library calls all succeeded, and the accessor is decided by the
    resource the mapper resolved, the flag and the namespace of the
    configuration. *)
Lemma BuildResourceInterface_val flags name w ri :
  result (RegexMatch.BuildResourceInterface flags name w) = Val ri ->
  exists cfg dyn m gvr ns,
    trace (RegexMatch.BuildResourceInterface flags name w)
    = [ EvToRESTConfig (Ok cfg); EvNewForConfig cfg (Ok dyn);
        EvToRESTMapper (Ok m); EvResourceFor m name (Ok gvr);
        EvNamespace (Ok ns) ]
    /\ ri = if (Resource gvr =? "nodes")%string
               || (Resource gvr =? "namespaces")%string
               || allNamespaces flags
            then DynResource dyn gvr
            else Namespace (DynResource dyn gvr) ns.
Proof.
  unfold RegexMatch.BuildResourceInterface.
  do 5 (step_call; try (cbn; discriminate)).
  exists a, a0, a1, a2, a3.
  destruct ((Resource a2 =? "nodes")%string
            || (Resource a2 =? "namespaces")%string
            || allNamespaces flags);
    cbn in *; split; congruence.
Qed.

Lemma Regex_BuildResourceInterface_val name w ri :
  result (Regex.BuildResourceInterface name w) = Val ri ->
  exists cfg dyn m gvr ns,
    trace (Regex.BuildResourceInterface name w)
    = [ EvToRESTConfig (Ok cfg); EvNewForConfig cfg (Ok dyn);
        EvToRESTMapper (Ok m); EvResourceFor m name (Ok gvr);
        EvNamespace (Ok ns) ]
    /\ ri = if (Resource gvr =? "nodes")%string
               || (Resource gvr =? "namespaces")%string
            then DynResource dyn gvr
            else Namespace (DynResource dyn gvr) ns.
Proof.
  unfold Regex.BuildResourceInterface.
  do 5 (step_call; try (cbn; discriminate)).
  exists a, a0, a1, a2, a3.
  destruct ((Resource a2 =? "nodes")%string
            || (Resource a2 =? "namespaces")%string);
    cbn in *; split; congruence.
Qed.

(** C3. Scope resolution: when the resource type the name resolves to is
    [nodes] or [namespaces], the accessor is the cluster-scoped one,
    [dynClient.Resource(gvr)], whatever the all-namespaces flag and the
    ambient namespace are; for any other resource type it is the
    all-namespaces accessor (again [dynClient.Resource(gvr)], which carries
    no namespace) when the flag is set, and the accessor of the ambient
    namespace, [dynClient.Resource(gvr).Namespace(ns)], when it is not. *)
Theorem scope_resolution flags name w ri :
  result (RegexMatch.BuildResourceInterface flags name w) = Val ri ->
  exists cfg dyn m gvr ns,
    trace (RegexMatch.BuildResourceInterface flags name w)
    = [ EvToRESTConfig (Ok cfg); EvNewForConfig cfg (Ok dyn);
        EvToRESTMapper (Ok m); EvResourceFor m name (Ok gvr);
        EvNamespace (Ok ns) ]
    /\ (Resource gvr = "nodes" \/ Resource gvr = "namespaces" ->
        ri = DynResource dyn gvr /\ namespace ri = "")
    /\ (Resource gvr <> "nodes" -> Resource gvr <> "namespaces" ->
        allNamespaces flags = true ->
        ri = DynResource dyn gvr /\ namespace ri = "")
    /\ (Resource gvr <> "nodes" -> Resource gvr <> "namespaces" ->
        allNamespaces flags = false ->
        ri = Namespace (DynResource dyn gvr) ns /\ namespace ri = ns).
Proof.
  intros R.
  destruct (BuildResourceInterface_val _ _ _ R)
    as (cfg & dyn & m & gvr & ns & T & D).
  exists cfg, dyn, m, gvr, ns. split; [exact T|].
  assert (Cluster : Resource gvr = "nodes" \/ Resource gvr = "namespaces" ->
                    ri = DynResource dyn gvr).
  { intros [E | E]; subst ri; rewrite E; cbn;
      [|destruct (_ =? "nodes")%string]; reflexivity. }
  assert (All : allNamespaces flags = true -> ri = DynResource dyn gvr).
  { intros A. subst ri. now rewrite A, orb_true_r. }
  assert (One : Resource gvr <> "nodes" -> Resource gvr <> "namespaces" ->
                allNamespaces flags = false ->
                ri = Namespace (DynResource dyn gvr) ns).
  { intros N1 N2 A. apply String.eqb_neq in N1, N2.
    subst ri. now rewrite N1, N2, A. }
  split; [|split].
  - intros C. now rewrite (Cluster C).
  - intros _ _ A. now rewrite (All A).
  - intros N1 N2 A. now rewrite (One N1 N2 A).
Qed.
End Scope.

(** ** Selection *)

Section Selection.
Context {H : Handles} {X : Externals}.

Lemma selectMatched_from re items (acc : list Ref) :
  fold_left
    (fun matched item =>
       let name := GetName item in
       let ns := GetNamespace item in
       if MatchString re name then (matched ++ [mkRef ns name])%list
       else matched)
    items acc
  = (acc ++ map refOf (filter (fun item => MatchString re (GetName item)) items))%list.
Proof.
  revert acc. induction items as [|item items IH]; intros acc; simpl.
  - now rewrite app_nil_r.
  - rewrite IH. destruct (MatchString re (GetName item)); simpl.
    + now rewrite <- app_assoc.
    + reflexivity.
Qed.

Lemma getCase_run re items w :
  getCase re items w
  = mkRun (Val tt) w
      (map (fun item => EvWrite Stdout (GetName item ++ nl))
           (filter (fun item => MatchString re (GetName item)) items)).
Proof.
  unfold getCase, forEach. induction items as [|item items IH]; simpl.
  - reflexivity.
  - destruct (MatchString re (GetName item)); unfold bind at 1; simpl;
      rewrite IH; reflexivity.
Qed.

Lemma Regex_deleteCase_calls ri re items :
  forall w,
    map fst (deleteCalls (trace (Regex.deleteCase ri re items w)))
    = map (fun item => (ri, GetName item))
          (filter (fun item => MatchString re (GetName item)) items).
Proof.
  unfold Regex.deleteCase, forEach.
  induction items as [|item items IH]; intros w; simpl rangeLoop.
  - reflexivity.
  - simpl filter. destruct (MatchString re (GetName item)).
    + destruct (Delete ri (GetName item) w) as [o w1] eqn:E.
      unfold bind at 1. erewrite bind_call by exact E.
      destruct o; cbn; rewrite IH; reflexivity.
    + unfold bind at 1. cbn. apply IH.
Qed.

(** C6. The selector keeps exactly the items whose name matches the
    pattern, in the order of the listing and as many times as they are
    listed; the test is on the name alone.  So does the [get] case when it
    prints, and the earlier revision when it deletes while filtering. *)
Theorem selector_filters_by_name re items :
  RegexMatch.selectMatched re items
  = map refOf (filter (fun item => MatchString re (GetName item)) items)
  /\ (forall w,
        writes (trace (getCase re items w))
        = map (fun item => (Stdout, GetName item ++ nl))
              (filter (fun item => MatchString re (GetName item)) items))
  /\ (forall ri w,
        map fst (deleteCalls (trace (Regex.deleteCase ri re items w)))
        = map (fun item => (ri, GetName item))
              (filter (fun item => MatchString re (GetName item)) items)).
Proof.
  split; [|split].
  - unfold RegexMatch.selectMatched. now rewrite selectMatched_from.
  - intros w. rewrite getCase_run. cbn [trace].
    induction (filter _ items) as [|item l IH]; simpl; [|rewrite IH];
      reflexivity.
  - intros ri w. apply Regex_deleteCase_calls.
Qed.

(** C7. With the empty pattern, which compiles and matches every name, the
    matched set is the whole listing; the pattern is the empty one when the
    second argument is left out. *)
Theorem empty_pattern_selects_all re :
  Compile "" = Ok re ->
  (forall name, MatchString re name = true) ->
  forall items name,
    patternOf [name] = ""
    /\ RegexMatch.selectMatched re items = map refOf items
    /\ (forall w,
          writes (trace (getCase re items w))
          = map (fun item => (Stdout, GetName item ++ nl)) items).
Proof.
  intros _ All items name.
  assert (F : filter (fun item => MatchString re (GetName item)) items = items).
  { induction items as [|item items IH]; simpl; [|rewrite All, IH];
      reflexivity. }
  split; [reflexivity|]. split.
  - unfold RegexMatch.selectMatched. rewrite selectMatched_from, F.
    reflexivity.
  - intros w. rewrite getCase_run, F. cbn [trace].
    clear F. induction items as [|item items IH]; simpl; [|rewrite IH];
      reflexivity.
Qed.
End Selection.

(** ** Traces without a prompt *)

Section Unasked.
Context {H : Handles} {X : Externals}.

Lemma quiet_unasked (tr : list Event) : quiet tr -> unasked tr.
Proof.
  intros (_ & S & W). split; [exact S|]. unfold prompts. now rewrite W.
Qed.

Lemma unasked_app (a b : list Event) :
  unasked a -> unasked b -> unasked (a ++ b).
Proof.
  intros (Sa & Pa) (Sb & Pb). split.
  - now rewrite scans_app, Sa, Sb.
  - now rewrite prompts_app, Pa, Pb.
Qed.

Lemma unasked_bind {A B} (m : M A) (k : A -> M B) w :
  unasked (trace (m w)) ->
  (forall a w', unasked (trace (k a w'))) ->
  unasked (trace (bind m k w)).
Proof.
  intros Um Uk. unfold bind.
  destruct (m w) as [[a|e|e] w' t]; simpl in *; auto.
  apply unasked_app; auto.
Qed.

Lemma unasked_rangeLoop {A S} (body : S -> A -> M S) :
  (forall s x w, unasked (trace (body s x w))) ->
  forall xs s w, unasked (trace (rangeLoop body xs s w)).
Proof.
  intros Ub. induction xs as [|x xs IH]; intros s w; simpl.
  - split; reflexivity.
  - apply unasked_bind; auto.
Qed.

Lemma displayEvents_unasked name matched :
  unasked (displayEvents name matched).
Proof.
  split.
  - unfold displayEvents. simpl. induction matched; simpl; auto.
  - unfold prompts, displayEvents. simpl.
    induction matched as [|m matched IH]; simpl; [reflexivity|].
    unfold RegexMatch.displayLine at 1.
    destruct (negb (NS m =? "")%string); simpl; exact IH.
Qed.

Lemma displayEvents_deleteCalls name matched :
  deleteCalls (displayEvents name matched) = [].
Proof.
  unfold displayEvents. simpl. induction matched; simpl; auto.
Qed.

Lemma prefix_append (p rest : string) : prefix p (p ++ rest) = true.
Proof.
  induction p as [|c p IH]; simpl.
  - destruct rest; reflexivity.
  - destruct (ascii_dec c c) as [_|NE]; [exact IH|now destruct NE].
Qed.

Lemma prompts_promptLine (n : nat) (confirm : string) :
  prompts [EvWrite Out (RegexMatch.promptLine n); EvScanln confirm]
  = [(Out, RegexMatch.promptLine n)]
  /\ scans [EvWrite Out (RegexMatch.promptLine n); EvScanln confirm]
     = [confirm].
Proof.
  split; [|reflexivity].
  unfold prompts. cbn [writes filter].
  replace (isPrompt (Out, RegexMatch.promptLine n)) with true; [reflexivity|].
  symmetry. apply (prefix_append (nl ++ "Delete all ")).
Qed.

Lemma deleteOne_unasked baseRI counts m w :
  unasked (trace (RegexMatch.deleteOne baseRI counts m w)).
Proof.
  destruct counts as [d f].
  destruct (Delete (RegexMatch.targetRI baseRI m) (Name m) w) as [o w1] eqn:E.
  rewrite (deleteOne_run baseRI d f m w E). destruct o; split; reflexivity.
Qed.

Lemma deletePhase_unasked name matched w :
  unasked (trace (RegexMatch.deletePhase name matched w)).
Proof.
  unfold RegexMatch.deletePhase.
  apply unasked_bind.
  - apply quiet_unasked, rebuildClient_quiet.
  - intros [dyn gvr] w1. apply unasked_bind.
    + apply unasked_rangeLoop. intros. apply deleteOne_unasked.
    + intros [d f] w2. split; reflexivity.
Qed.
End Unasked.

(** ** The guarded deletion *)

Section Guard.
Context {H : Handles} {X : Externals}.

(** C8. When nothing matches, [delete] reports that no resources matched,
    returns [nil] (the process exits with status 0), and neither prompts,
    nor reads the input stream, nor issues a delete call. *)
Theorem empty_match_set flags name rest re items w w1 t1 :
  Compile (patternOf (name :: rest)) = Ok re ->
  RegexMatch.listItems flags name w = mkRun (Val items) w1 t1 ->
  RegexMatch.selectMatched re items = [] ->
  let r := RegexMatch.runCmd flags (name :: rest) "delete" w in
  r = mkRun (Val tt) w1
        (t1 ++ [EvWrite Out ("No resources matched your pattern." ++ nl)])
  /\ exitStatus (result r) = 0
  /\ prompts (trace r) = []
  /\ scans (trace r) = []
  /\ deleteCalls (trace r) = [].
Proof.
  intros C L E r.
  assert (Q : quiet t1).
  { pose proof (listItems_quiet flags name w) as Q. now rewrite L in Q. }
  assert (R : r = mkRun (Val tt) w1
                (t1 ++ [EvWrite Out ("No resources matched your pattern." ++ nl)])).
  { subst r. erewrite runCmd_delete by eassumption.
    now erewrite deleteCase_empty by eassumption. }
  rewrite R. cbn [result trace]. destruct Q as (D & S & W).
  repeat split.
  - rewrite prompts_app. unfold prompts at 1. rewrite W. reflexivity.
  - rewrite scans_app, S. reflexivity.
  - rewrite deleteCalls_app, D. reflexivity.
Qed.

(** C1. With a match set that is not empty and without [--yes], [delete]
    prompts once and reads the input stream once, with [Fscanln], which
    stores one word.  When the word stored is neither [y] nor [Y], it writes
    [Aborted.] and returns [nil], having issued no delete call; when the word
    stored is [y] or [Y], it goes on with the deletion phase.  The decision
    is on the word stored, not on the whole line. *)
Theorem confirmation_gate flags name rest re items w w1 t1 confirm w2 :
  NoForeignY MapToLower ->
  Compile (patternOf (name :: rest)) = Ok re ->
  RegexMatch.listItems flags name w = mkRun (Val items) w1 t1 ->
  RegexMatch.selectMatched re items <> [] ->
  autoYes flags = false ->
  Fscanln w1 = (confirm, w2) ->
  let matched := RegexMatch.selectMatched re items in
  let r := RegexMatch.runCmd flags (name :: rest) "delete" w in
  let asked :=
    (t1 ++ displayEvents name matched
        ++ [EvWrite Out (RegexMatch.promptLine (List.length matched));
            EvScanln confirm])%list in
  prompts (trace r) = [(Out, RegexMatch.promptLine (List.length matched))]
  /\ scans (trace r) = [confirm]
  /\ (confirm <> "y" -> confirm <> "Y" ->
      r = mkRun (Val tt) w2 (asked ++ [EvWrite Out ("Aborted." ++ nl)])
      /\ deleteCalls (trace r) = [])
  /\ (confirm = "y" \/ confirm = "Y" ->
      let d := RegexMatch.deletePhase name matched w2 in
      r = mkRun (result d) (final d) (asked ++ trace d)).
Proof.
  intros N C L NE AY SC matched r asked.
  assert (Q : quiet t1).
  { pose proof (listItems_quiet flags name w) as Q. now rewrite L in Q. }
  pose proof (quiet_unasked Q) as (S1 & P1).
  pose proof (displayEvents_unasked name matched) as (S2 & P2).
  assert (Asked : prompts asked
                  = [(Out, RegexMatch.promptLine (List.length matched))]
                  /\ scans asked = [confirm]).
  { subst asked. rewrite !prompts_app, !scans_app, S1, P1, S2, P2.
    apply prompts_promptLine. }
  destruct Asked as (PA & SA).
  assert (Yes : confirm = "y" \/ confirm = "Y" ->
                let d := RegexMatch.deletePhase name matched w2 in
                r = mkRun (result d) (final d) (asked ++ trace d)).
  { intros Y d. subst r asked.
    erewrite runCmd_delete by eassumption.
    assert (Cf : Confirmed flags w1 confirm w2)
      by (unfold Confirmed; rewrite AY; auto).
    erewrite deleteCase_confirmed by eassumption.
    unfold confirmEvents. rewrite AY. cbn [result final trace].
    now rewrite <- !app_assoc. }
  assert (No : ToLower MapToLower confirm <> "y" ->
               r = mkRun (Val tt) w2 (asked ++ [EvWrite Out ("Aborted." ++ nl)])).
  { intros NY. subst r asked.
    erewrite runCmd_delete by eassumption.
    erewrite deleteCase_aborted by eassumption.
    cbn [result final trace]. now rewrite <- !app_assoc. }
  destruct (String.eqb_spec (ToLower MapToLower confirm) "y") as [Y | NY].
  - apply (ToLower_y _ N) in Y. pose proof (Yes Y) as R. cbv zeta in R.
    pose proof (deletePhase_unasked name matched w2) as (S3 & P3).
    repeat split.
    + rewrite R. cbn [trace]. now rewrite prompts_app, PA, P3.
    + rewrite R. cbn [trace]. now rewrite scans_app, SA, S3.
    + destruct Y; congruence.
    + destruct Y; congruence.
    + exact Yes.
  - pose proof (No NY) as R.
    repeat split.
    + rewrite R. cbn [trace]. now rewrite prompts_app, PA.
    + rewrite R. cbn [trace]. now rewrite scans_app, SA.
    + exact R.
    + rewrite R. cbn [trace]. subst asked.
      rewrite !deleteCalls_app, displayEvents_deleteCalls.
      destruct Q as (D & _). rewrite D. reflexivity.
    + exact Yes.
Qed.
End Guard.

(** ** The deletion phase *)

Section Deletion.
Context {H : Handles} {X : Externals}.

Lemma map_fst_combine_same {A B} (l : list A) (l' : list B) :
  List.length l' = List.length l -> map fst (combine l l') = l.
Proof.
  revert l'. induction l as [|a l IH]; intros [|b l'] E;
    simpl in *; try discriminate; [reflexivity|].
  f_equal. apply IH. now injection E.
Qed.

Lemma map_snd_combine_same {A B} (l : list A) (l' : list B) :
  List.length l' = List.length l -> map snd (combine l l') = l'.
Proof.
  revert l'. induction l as [|a l IH]; intros [|b l'] E;
    simpl in *; try discriminate; [reflexivity|].
  f_equal. apply IH. now injection E.
Qed.

Lemma deleteCalls_items baseRI (l : list (Ref * option string)) :
  deleteCalls (flat_map (itemEvents baseRI) l)
  = map (fun mo => (RegexMatch.targetRI baseRI (fst mo), Name (fst mo), snd mo)) l.
Proof.
  induction l as [|[m o] l IH]; simpl; [reflexivity|].
  destruct o; simpl; now rewrite IH.
Qed.

Lemma writes_items baseRI (l : list (Ref * option string)) :
  writes (flat_map (itemEvents baseRI) l)
  = map (fun mo => match snd mo with
                   | Some e => (ErrOut, RegexMatch.failedLine (fst mo) e)
                   | None => (Out, RegexMatch.deletedLine (fst mo))
                   end) l.
Proof.
  induction l as [|[m o] l IH]; simpl; [reflexivity|].
  destruct o; simpl; now rewrite IH.
Qed.

Lemma confirmEvents_deleteCalls flags n confirm :
  deleteCalls (confirmEvents flags n confirm) = [].
Proof. unfold confirmEvents. destruct (autoYes flags); reflexivity. Qed.

(** A confirmed [delete] whose client is rebuilt runs the loop to its end
    and returns [nil]. *)
Lemma runCmd_deleted flags name rest re items w w1 t1 confirm w2 dyn gvr w3 t3 :
  Compile (patternOf (name :: rest)) = Ok re ->
  RegexMatch.listItems flags name w = mkRun (Val items) w1 t1 ->
  RegexMatch.selectMatched re items <> [] ->
  Confirmed flags w1 confirm w2 ->
  RegexMatch.rebuildClient name w2 = mkRun (Val (dyn, gvr)) w3 t3 ->
  let matched := RegexMatch.selectMatched re items in
  let baseRI := DynResource dyn gvr in
  let n := Z.of_nat (List.length matched) in
  exists outcomes wf,
    List.length outcomes = List.length matched
    /\ rangeLoop (RegexMatch.deleteOne baseRI) matched (0, 0) w3
       = mkRun (Val (n - failures outcomes, failures outcomes)) wf
               (flat_map (itemEvents baseRI) (combine matched outcomes))
    /\ RegexMatch.runCmd flags (name :: rest) "delete" w
       = mkRun (Val tt) wf
           (t1 ++ displayEvents name matched
               ++ confirmEvents flags (List.length matched) confirm
               ++ t3
               ++ flat_map (itemEvents baseRI) (combine matched outcomes)
               ++ [EvWrite Out (RegexMatch.summaryLine
                                  (n - failures outcomes) (failures outcomes))])
    /\ deleteCalls (trace (RegexMatch.runCmd flags (name :: rest) "delete" w))
       = map (fun mo => (RegexMatch.targetRI baseRI (fst mo), Name (fst mo), snd mo))
             (combine matched outcomes).
Proof.
  intros C L NE Cf R matched baseRI n.
  destruct (@deletePhase_run _ _ name matched _ _ _ _ _ R)
    as (outcomes & wf & Len & Loop & D).
  exists outcomes, wf. split; [exact Len|]. split; [exact Loop|].
  assert (Run : RegexMatch.runCmd flags (name :: rest) "delete" w
                = mkRun (Val tt) wf
                    (t1 ++ displayEvents name matched
                        ++ confirmEvents flags (List.length matched) confirm
                        ++ t3
                        ++ flat_map (itemEvents baseRI) (combine matched outcomes)
                        ++ [EvWrite Out (RegexMatch.summaryLine
                              (n - failures outcomes) (failures outcomes))])).
  { erewrite runCmd_delete by eassumption.
    erewrite deleteCase_confirmed by eassumption.
    cbv zeta. fold matched. rewrite D. cbn [result final trace].
    reflexivity. }
  split; [exact Run|].
  rewrite Run. cbn [trace].
  pose proof (listItems_quiet flags name w) as (D1 & _). rewrite L in D1.
  pose proof (rebuildClient_quiet name w2) as (D3 & _). rewrite R in D3.
  cbn [trace] in D1, D3.
  rewrite !deleteCalls_app, D1, D3, displayEvents_deleteCalls,
    confirmEvents_deleteCalls, deleteCalls_items.
  cbn. now rewrite app_nil_r.
Qed.

(** C2. A confirmed batch of N matches attempts all N, once each and in the
    order of the match set, whatever fails: with K the number of delete
    calls that returned an error, the counters end at N - K deleted and K
    failed, every match gets its own report line, the summary states both
    counters, and the command returns [nil], so the process exits with
    status 0. *)
Theorem partial_failure flags name rest re items w w1 t1 confirm w2 dyn gvr w3 t3 :
  Compile (patternOf (name :: rest)) = Ok re ->
  RegexMatch.listItems flags name w = mkRun (Val items) w1 t1 ->
  RegexMatch.selectMatched re items <> [] ->
  Confirmed flags w1 confirm w2 ->
  RegexMatch.rebuildClient name w2 = mkRun (Val (dyn, gvr)) w3 t3 ->
  let matched := RegexMatch.selectMatched re items in
  let baseRI := DynResource dyn gvr in
  let r := RegexMatch.runCmd flags (name :: rest) "delete" w in
  let calls := deleteCalls (trace r) in
  let N := Z.of_nat (List.length matched) in
  let K := failures (map snd calls) in
  map fst calls = map (fun m => (RegexMatch.targetRI baseRI m, Name m)) matched
  /\ result (rangeLoop (RegexMatch.deleteOne baseRI) matched (0, 0) w3)
     = Val (N - K, K)
  /\ writes (trace r)
     = (writes (displayEvents name matched
                ++ confirmEvents flags (List.length matched) confirm)
        ++ map (fun mo => match snd mo with
                          | Some e => (ErrOut, RegexMatch.failedLine (fst mo) e)
                          | None => (Out, RegexMatch.deletedLine (fst mo))
                          end) (combine matched (map snd calls))
        ++ [(Out, RegexMatch.summaryLine (N - K) K)])%list
  /\ result r = Val tt
  /\ exitStatus (result r) = 0.
Proof.
  intros C L NE Cf R matched baseRI r calls N K.
  destruct (@runCmd_deleted _ _ _ _ _ _ _ _ _ _ _ _ _ _ C L NE Cf R)
    as (outcomes & wf & Len & Loop & Run & Calls).
  fold matched baseRI N r in Loop, Run, Calls. fold calls in Calls.
  assert (O : map snd calls = outcomes).
  { rewrite Calls, map_map. cbn [snd].
    apply (map_snd_combine_same matched outcomes Len). }
  subst K. rewrite O.
  split; [|split; [|split; [|split]]].
  - rewrite Calls, map_map. cbn [fst].
    transitivity (map (fun m => (RegexMatch.targetRI baseRI m, Name m))
                      (map fst (combine matched outcomes))).
    + now rewrite map_map.
    + now rewrite (map_fst_combine_same matched outcomes Len).
  - rewrite Loop. reflexivity.
  - rewrite Run. cbn [trace].
    pose proof (listItems_quiet flags name w) as (_ & _ & W1). rewrite L in W1.
    pose proof (rebuildClient_quiet name w2) as (_ & _ & W3). rewrite R in W3.
    cbn [trace] in W1, W3.
    rewrite !writes_app, W1, W3, writes_items. cbn. now rewrite <- !app_assoc.
  - rewrite Run. reflexivity.
  - rewrite Run. reflexivity.
Qed.

Lemma Forall2_map_combine {A B C} (P : A -> C -> Prop) (g : A * B -> C)
      (l : list A) (l' : list B) :
  List.length l' = List.length l ->
  (forall a b, P a (g (a, b))) ->
  Forall2 P l (map g (combine l l')).
Proof.
  intros E Pg. revert l' E. induction l as [|a l IH]; intros [|b l'] E;
    simpl in *; try discriminate; constructor; auto.
Qed.

(** C4. In the deletion phase every match is deleted through an accessor
    taken for that match: [baseRI] itself, which carries no namespace, when
    the namespace of the match is empty, and [baseRI.Namespace(m.NS)] when
    it is not; either way the accessor is on the namespace of the match. *)
Theorem per_item_accessor flags name rest re items w w1 t1 confirm w2 dyn gvr w3 t3 :
  Compile (patternOf (name :: rest)) = Ok re ->
  RegexMatch.listItems flags name w = mkRun (Val items) w1 t1 ->
  RegexMatch.selectMatched re items <> [] ->
  Confirmed flags w1 confirm w2 ->
  RegexMatch.rebuildClient name w2 = mkRun (Val (dyn, gvr)) w3 t3 ->
  let matched := RegexMatch.selectMatched re items in
  let r := RegexMatch.runCmd flags (name :: rest) "delete" w in
  Forall2
    (fun m call =>
       let ri := fst (fst call) in
       snd (fst call) = Name m
       /\ (NS m = "" -> ri = DynResource dyn gvr)
       /\ (NS m <> "" -> ri = Namespace (DynResource dyn gvr) (NS m))
       /\ client ri = dyn /\ resource ri = gvr /\ namespace ri = NS m)
    matched (deleteCalls (trace r)).
Proof.
  intros C L NE Cf R matched r.
  destruct (@runCmd_deleted _ _ _ _ _ _ _ _ _ _ _ _ _ _ C L NE Cf R)
    as (outcomes & wf & Len & _ & _ & Calls).
  fold matched r in Calls. rewrite Calls.
  apply Forall2_map_combine; [exact Len|].
  intros m o. cbn [fst snd]. unfold RegexMatch.targetRI.
  destruct (String.eqb_spec (NS m) "") as [E | NE']; cbn [negb].
  - rewrite E. repeat split; congruence.
  - repeat split; congruence.
Qed.

(** C10. The report lines of the deletion loop put the namespace, a slash
    and the name after [Deleted] or [Failed to delete], whatever the
    namespace is: for a match without a namespace they read [Deleted /name]
    and [Failed to delete /name: ...].  The lines that present the match
    set leave the namespace and the slash out for such a match. *)
Theorem report_lines_keep_slash baseRI matched counts w name :
  Forall2
    (fun m line =>
       (line = (Out, "Deleted " ++ NS m ++ "/" ++ Name m ++ nl)
        \/ exists e,
             line = (ErrOut, "Failed to delete " ++ NS m ++ "/" ++ Name m
                              ++ ": " ++ e ++ nl))
       /\ (NS m = "" ->
           line = (Out, "Deleted /" ++ Name m ++ nl)
           \/ exists e,
                line = (ErrOut, "Failed to delete /" ++ Name m
                                 ++ ": " ++ e ++ nl)))
    matched
    (writes (trace (rangeLoop (RegexMatch.deleteOne baseRI) matched counts w)))
  /\ Forall2
       (fun m line =>
          (NS m = "" -> line = (Out, "  " ++ Name m ++ nl))
          /\ (NS m <> "" -> line = (Out, "  " ++ NS m ++ "/" ++ Name m ++ nl)))
       matched
       (tl (writes (trace (RegexMatch.displayMatches name matched w)))).
Proof.
  split.
  - destruct counts as [d f].
    destruct (deleteLoop_run baseRI matched d f w)
      as (outcomes & wf & Len & Loop).
    rewrite Loop. cbn [trace]. rewrite writes_items.
    apply Forall2_map_combine; [exact Len|].
    intros m [e|]; cbn [fst snd]; split.
    + right. exists e. reflexivity.
    + intros E. right. exists e.
      unfold RegexMatch.failedLine. rewrite E. reflexivity.
    + left. reflexivity.
    + intros E. left. unfold RegexMatch.deletedLine. rewrite E. reflexivity.
  - rewrite displayMatches_run. cbn [trace]. unfold displayEvents.
    cbn [writes tl].
    induction matched as [|m matched IH]; cbn [map writes]; constructor.
    + unfold RegexMatch.displayLine.
      destruct (String.eqb_spec (NS m) "") as [E | NE]; cbn [negb];
        split; congruence.
    + exact IH.
Qed.

Lemma rebuildClient_raise name w e :
  result (RegexMatch.rebuildClient name w) = Raise e ->
  let tr := trace (RegexMatch.rebuildClient name w) in
  (exists msg, last tr (EvScanln "") = EvToRESTConfig (Err msg)
               /\ e = LibError msg)
  \/ (exists cfg msg, last tr (EvScanln "") = EvNewForConfig cfg (Err msg)
                      /\ e = LibError msg)
  \/ (exists msg, last tr (EvScanln "") = EvToRESTMapper (Err msg)
                  /\ e = LibError msg)
  \/ (exists m msg, last tr (EvScanln "") = EvResourceFor m name (Err msg)
                    /\ e = UnknownResource name msg).
Proof.
  unfold RegexMatch.rebuildClient.
  step_call; [|cbn; intros [= <-]; left; eauto].
  step_call; [|cbn; intros [= <-]; right; left; eauto].
  step_call; [|cbn; intros [= <-]; right; right; left; eauto].
  step_call; [cbn; discriminate|].
  cbn; intros [= <-]; right; right; right; eauto.
Qed.

(** C9. When the confirmation is given or skipped and the command then
    fails to build the client again ([ToRESTConfig], [NewForConfig],
    [ToRESTMapper] or [ResourceFor] returns an error), it returns that error
    (the one of [ResourceFor] wrapped as an unknown resource), having issued
    no delete call and written nothing after the confirmation: no report
    line and no summary. *)
Theorem rebuild_failure flags name rest re items w w1 t1 confirm w2 e :
  Compile (patternOf (name :: rest)) = Ok re ->
  RegexMatch.listItems flags name w = mkRun (Val items) w1 t1 ->
  RegexMatch.selectMatched re items <> [] ->
  Confirmed flags w1 confirm w2 ->
  result (RegexMatch.rebuildClient name w2) = Raise e ->
  let matched := RegexMatch.selectMatched re items in
  let r := RegexMatch.runCmd flags (name :: rest) "delete" w in
  let rebuilt := trace (RegexMatch.rebuildClient name w2) in
  let shown := (displayEvents name matched
                ++ confirmEvents flags (List.length matched) confirm)%list in
  result r = Raise e
  /\ trace r = (t1 ++ shown ++ rebuilt)%list
  /\ deleteCalls (trace r) = []
  /\ writes (trace r) = writes shown
  /\ ((exists msg, last rebuilt (EvScanln "") = EvToRESTConfig (Err msg)
                   /\ e = LibError msg)
      \/ (exists cfg msg, last rebuilt (EvScanln "") = EvNewForConfig cfg (Err msg)
                          /\ e = LibError msg)
      \/ (exists msg, last rebuilt (EvScanln "") = EvToRESTMapper (Err msg)
                      /\ e = LibError msg)
      \/ (exists m msg, last rebuilt (EvScanln "") = EvResourceFor m name (Err msg)
                        /\ e = UnknownResource name msg)).
Proof.
  intros C L NE Cf R matched r rebuilt shown.
  assert (Run : r = mkRun (Raise e)
                      (final (RegexMatch.rebuildClient name w2))
                      (t1 ++ shown ++ rebuilt)).
  { subst r shown rebuilt.
    erewrite runCmd_delete by eassumption.
    erewrite deleteCase_confirmed by eassumption.
    cbv zeta. fold matched.
    rewrite (deletePhase_raise name matched w2 R). cbn [result final trace].
    now rewrite <- !app_assoc. }
  pose proof (listItems_quiet flags name w) as (D1 & _ & W1). rewrite L in D1, W1.
  pose proof (rebuildClient_quiet name w2) as (D3 & _ & W3).
  cbn [trace] in D1, W1. fold rebuilt in D3, W3.
  rewrite Run. cbn [result trace].
  split; [reflexivity|]. split; [reflexivity|]. split; [|split].
  - subst shown.
    now rewrite !deleteCalls_app, D1, D3, displayEvents_deleteCalls,
      confirmEvents_deleteCalls.
  - now rewrite !writes_app, W1, W3, app_nil_r.
  - apply (rebuildClient_raise name w2 R).
Qed.
End Deletion.

(** ** A pattern that does not compile *)

Section InvalidPattern.
Context {H : Handles} {X : Externals}.

(** C5. What the code does with a pattern that does not compile, where every
    other failure of [runCmd] is a returned error: it panics with the error
    of [regexp.Compile], in both revisions and for every operation, before
    it makes any library call, reads or writes anything.  The error is not
    returned to the caller, and the process ends in the panic, with a status
    that is not 0. *)
Theorem invalid_pattern_panics flags name rest operation w msg :
  Compile (patternOf (name :: rest)) = Err msg ->
  RegexMatch.runCmd flags (name :: rest) operation w
  = mkRun (Panic (LibError msg)) w []
  /\ Regex.runCmd (name :: rest) operation w
     = mkRun (Panic (LibError msg)) w []
  /\ (forall e,
        result (RegexMatch.runCmd flags (name :: rest) operation w) <> Raise e)
  /\ exitStatus (result (RegexMatch.runCmd flags (name :: rest) operation w))
     <> 0.
Proof.
  intros C.
  assert (R1 : RegexMatch.runCmd flags (name :: rest) operation w
               = mkRun (Panic (LibError msg)) w []).
  { unfold RegexMatch.runCmd. cbv zeta. now rewrite C. }
  assert (R2 : Regex.runCmd (name :: rest) operation w
               = mkRun (Panic (LibError msg)) w []).
  { unfold Regex.runCmd. cbv zeta. now rewrite C. }
  rewrite R1, R2. repeat split; cbn; discriminate.
Qed.
End InvalidPattern.

(** ** The command on the small cluster *)

Lemma Demo_NoForeignY : NoForeignY (@MapToLower Demo.handles Demo.externals).
Proof. intros s A E. cbn in E. subst s. discriminate A. Qed.

(** Answering [n] to the prompt: one prompt, one read, [Aborted.], nothing
    deleted. *)
Lemma confirmation_gate_witness :
  prompts (trace (Demo.run (mkFlags false false) ["cm"; "app"] "delete"
                           (Demo.cluster ["n"] [] [])))
  = [(Out, RegexMatch.promptLine 2)]
  /\ scans (trace (Demo.run (mkFlags false false) ["cm"; "app"] "delete"
                            (Demo.cluster ["n"] [] [])))
     = ["n"]
  /\ result (Demo.run (mkFlags false false) ["cm"; "app"] "delete"
                      (Demo.cluster ["n"] [] []))
     = Val tt
  /\ deleteCalls (trace (Demo.run (mkFlags false false) ["cm"; "app"] "delete"
                                  (Demo.cluster ["n"] [] [])))
     = [].
Proof.
  edestruct (@confirmation_gate Demo.handles Demo.externals)
    with (flags := mkFlags false false) (name := "cm") (rest := ["app"])
         (w := Demo.cluster ["n"] [] [])
    as (P & S & No & _).
  - exact Demo_NoForeignY.
  - vm_compute. reflexivity.
  - vm_compute. reflexivity.
  - vm_compute. discriminate.
  - reflexivity.
  - vm_compute. reflexivity.
  - destruct No as (R & D); [discriminate | discriminate |].
    split; [exact P|]. split; [exact S|]. split; [|exact D].
    unfold Demo.run. rewrite R. reflexivity.
Defined.

(** An input line that is neither [y] nor [Y] and yet deletes: [y] after a
    blank, which [Fscanln] skips, and [y] followed by another word, at which
    [Fscanln] returns an error that the command drops.  In both runs the word
    stored is [y], both config maps are attempted and [Aborted.] is not
    written. *)
Lemma confirmation_input_not_exact :
  (" y" <> "y" /\ " y" <> "Y"
   /\ scans (trace (Demo.run (mkFlags false false) ["cm"; "app"] "delete"
                              (Demo.cluster [" y"] [] [])))
      = ["y"]
   /\ map fst (deleteCalls
                  (trace (Demo.run (mkFlags false false) ["cm"; "app"] "delete"
                                   (Demo.cluster [" y"] [] []))))
      = [(Demo.configmaps "foo", "app-a"); (Demo.configmaps "foo", "app-b")]
   /\ ~ In (Out, "Aborted." ++ nl)
           (writes (trace (Demo.run (mkFlags false false) ["cm"; "app"]
                                    "delete" (Demo.cluster [" y"] [] [])))))
  /\ ("y no" <> "y" /\ "y no" <> "Y"
      /\ scans (trace (Demo.run (mkFlags false false) ["cm"; "app"] "delete"
                                 (Demo.cluster ["y no"] [] [])))
         = ["y"]
      /\ map fst (deleteCalls
                     (trace (Demo.run (mkFlags false false) ["cm"; "app"]
                                      "delete" (Demo.cluster ["y no"] [] []))))
         = [(Demo.configmaps "foo", "app-a"); (Demo.configmaps "foo", "app-b")]
      /\ ~ In (Out, "Aborted." ++ nl)
              (writes (trace (Demo.run (mkFlags false false) ["cm"; "app"]
                                       "delete" (Demo.cluster ["y no"] [] []))))).
Proof.
  split; (split; [discriminate|]); (split; [discriminate|]);
    (split; [vm_compute; reflexivity|]);
    (split; [vm_compute; reflexivity|]);
    vm_compute; intros I;
    repeat (destruct I as [I | I]; [discriminate I|]); exact I.
Qed.

(** Scope of [cm] on the context's namespace [foo], without the flag. *)
Lemma scope_resolution_witness :
  result (@RegexMatch.BuildResourceInterface Demo.handles Demo.externals
            (mkFlags false false) "cm" (Demo.cluster [] [] []))
  = Val (Demo.configmaps "foo")
  /\ namespace (Demo.configmaps "foo") = "foo".
Proof.
  assert (R : result (@RegexMatch.BuildResourceInterface
                        Demo.handles Demo.externals
                        (mkFlags false false) "cm" (Demo.cluster [] [] []))
              = Val (Demo.configmaps "foo")) by (vm_compute; reflexivity).
  split; [exact R|].
  destruct (@scope_resolution Demo.handles Demo.externals _ _ _ _ R)
    as (cfg & dyn & m & gvr & ns & T & _ & _ & One).
  vm_compute in T. injection T as _ _ _ G N. subst gvr ns.
  apply One; [discriminate | discriminate | reflexivity].
Defined.

(** [--yes], and the cluster refuses to delete [app-b]: both are attempted,
    one is deleted, one fails, and the command returns [nil]. *)
Lemma partial_failure_witness :
  map fst (deleteCalls (trace (Demo.run (mkFlags false true) ["cm"; "app"]
                                 "delete" (Demo.cluster [] [] ["app-b"]))))
  = [(Demo.configmaps "foo", "app-a"); (Demo.configmaps "foo", "app-b")]
  /\ writes (trace (Demo.run (mkFlags false true) ["cm"; "app"]
                              "delete" (Demo.cluster [] [] ["app-b"])))
     = [ (Out, "The following cm match your regex:" ++ nl);
         (Out, "  foo/app-a" ++ nl);
         (Out, "  foo/app-b" ++ nl);
         (Out, "Deleted foo/app-a" ++ nl);
         (ErrOut, "Failed to delete foo/app-b: forbidden" ++ nl);
         (Out, RegexMatch.summaryLine 1 1) ]
  /\ exitStatus (result (Demo.run (mkFlags false true) ["cm"; "app"]
                                  "delete" (Demo.cluster [] [] ["app-b"])))
     = 0.
Proof.
  edestruct (@partial_failure Demo.handles Demo.externals)
    with (flags := mkFlags false true) (name := "cm") (rest := ["app"])
         (w := Demo.cluster [] [] ["app-b"]) (confirm := "")
    as (Calls & _ & W & _ & E).
  - vm_compute. reflexivity.
  - vm_compute. reflexivity.
  - vm_compute. discriminate.
  - vm_compute. reflexivity.
  - vm_compute. reflexivity.
  - split; [exact Calls|]. split; [|exact E].
    etransitivity; [exact W|]. vm_compute. reflexivity.
Defined.

(** Config maps of two namespaces matched under [--all-namespaces]: each is
    deleted through the accessor of its own namespace. *)
Lemma per_item_accessor_witness :
  Forall2
    (fun m call =>
       snd (fst call) = Name m
       /\ (NS m = "" -> fst (fst call) = Demo.configmaps "")
       /\ (NS m <> "" -> fst (fst call) = Demo.configmaps (NS m))
       /\ client (fst (fst call)) = tt
       /\ resource (fst (fst call)) = GVR "" "v1" "configmaps"
       /\ namespace (fst (fst call)) = NS m)
    [mkRef "foo" "app-a"; mkRef "foo" "app-b"; mkRef "bar" "web"]
    (deleteCalls (trace (Demo.run (mkFlags true false) ["cm"] "delete"
                                  (Demo.cluster ["Y"] [] [])))).
Proof.
  eassert (L : @RegexMatch.listItems Demo.handles Demo.externals
                 (mkFlags true false) "cm" (Demo.cluster ["Y"] [] [])
               = mkRun (Val _) _ _)
    by (vm_compute; reflexivity).
  lazymatch type of L with
  | _ = mkRun _ ?w1 _ =>
      eassert (Cf : @Confirmed Demo.handles Demo.externals
                      (mkFlags true false) w1 "Y" _)
        by (vm_compute; split; [reflexivity | right; reflexivity])
  end.
  lazymatch type of Cf with
  | Confirmed _ _ _ ?w2 =>
      eassert (R : @RegexMatch.rebuildClient Demo.handles Demo.externals "cm" w2
                   = mkRun (Val (_, _)) _ _)
        by (vm_compute; reflexivity)
  end.
  refine (@per_item_accessor Demo.handles Demo.externals
            (mkFlags true false) "cm" [] "" _ _ _ _ _ _ _ _ _ _ _ L _ Cf R).
  - reflexivity.
  - vm_compute. discriminate.
Defined.

(** The pattern [(] does not compile. *)
Lemma invalid_pattern_panics_witness :
  Demo.run (mkFlags false false) ["pods"; "("] "get" (Demo.cluster [] [] [])
  = @mkRun Demo.handles unit
      (Panic (LibError "error parsing regexp: missing closing ): `(`"))
      (Demo.cluster [] [] []) [].
Proof.
  apply (@invalid_pattern_panics Demo.handles Demo.externals
           (mkFlags false false) "pods" ["("] "get" (Demo.cluster [] [] [])).
  reflexivity.
Defined.

(** No error is returned there: the command does not return at all. *)
Lemma invalid_pattern_not_returned :
  (exists msg, @Compile Demo.handles Demo.externals "(" = Err msg)
  /\ ~ (exists e, result (Demo.run (mkFlags false false) ["pods"; "("] "get"
                                   (Demo.cluster [] [] [])) = Raise e).
Proof.
  split.
  - eexists. reflexivity.
  - intros (e & E). vm_compute in E. discriminate E.
Qed.

(** The stand-in engine compiles the empty pattern and matches every name
    with it: the whole listing is selected. *)
Lemma empty_pattern_selects_all_witness :
  @RegexMatch.selectMatched Demo.handles Demo.externals ""
    [mkRef "foo" "app-a"; mkRef "foo" "app-b"; mkRef "bar" "web"]
  = [mkRef "foo" "app-a"; mkRef "foo" "app-b"; mkRef "bar" "web"].
Proof.
  refine (proj1 (proj2 (@empty_pattern_selects_all Demo.handles Demo.externals
                          "" _ _ _ "cm"))).
  - reflexivity.
  - intros name. destruct name; reflexivity.
Defined.

(** No config map is named [zzz]: nothing is asked, read or deleted. *)
Lemma empty_match_set_witness :
  exitStatus (result (Demo.run (mkFlags false false) ["cm"; "zzz"] "delete"
                               (Demo.cluster ["y"] [] [])))
  = 0
  /\ prompts (trace (Demo.run (mkFlags false false) ["cm"; "zzz"] "delete"
                               (Demo.cluster ["y"] [] [])))
     = []
  /\ scans (trace (Demo.run (mkFlags false false) ["cm"; "zzz"] "delete"
                             (Demo.cluster ["y"] [] [])))
     = []
  /\ deleteCalls (trace (Demo.run (mkFlags false false) ["cm"; "zzz"] "delete"
                                   (Demo.cluster ["y"] [] [])))
     = [].
Proof.
  edestruct (@empty_match_set Demo.handles Demo.externals)
    with (flags := mkFlags false false) (name := "cm") (rest := ["zzz"])
         (w := Demo.cluster ["y"] [] [])
    as (_ & Rest).
  - vm_compute. reflexivity.
  - vm_compute. reflexivity.
  - vm_compute. reflexivity.
  - exact Rest.
Defined.

(** The connection drops after the listing (library call number 6 is the
    first of the rebuild): the error is returned and nothing is deleted. *)
Lemma rebuild_failure_witness :
  result (Demo.run (mkFlags false false) ["cm"; "app"] "delete"
                   (Demo.cluster ["y"] [6%nat] []))
  = Raise (LibError "connection refused")
  /\ deleteCalls (trace (Demo.run (mkFlags false false) ["cm"; "app"] "delete"
                                   (Demo.cluster ["y"] [6%nat] [])))
     = [].
Proof.
  edestruct (@rebuild_failure Demo.handles Demo.externals)
    with (flags := mkFlags false false) (name := "cm") (rest := ["app"])
         (w := Demo.cluster ["y"] [6%nat] [])
         (e := LibError "connection refused")
    as (R & _ & D & _).
  - vm_compute. reflexivity.
  - vm_compute. reflexivity.
  - vm_compute. discriminate.
  - vm_compute. split; [reflexivity | left; reflexivity].
  - vm_compute. reflexivity.
  - split; [exact R | exact D].
Defined.

(** Nodes have no namespace: the report lines start with a slash, the
    presentation lines do not. *)
Example nodes_reported_with_slash :
  writes (trace (Demo.run (mkFlags false true) ["no"; "^node"] "delete"
                          (Demo.nodes [])))
  = [ (Out, "The following no match your regex:" ++ nl);
      (Out, "  node-1" ++ nl);
      (Out, "  node-2" ++ nl);
      (Out, "Deleted /node-1" ++ nl);
      (Out, "Deleted /node-2" ++ nl);
      (Out, RegexMatch.summaryLine 2 0) ].
Proof. vm_compute. reflexivity. Qed.

(** [get pods "^nginx-"] prints the two pods whose names start so, in the
    order of the listing. *)
Example get_pods_nginx :
  writes (trace (Demo.run (mkFlags false false) ["pods"; "^nginx-"] "get"
                          Demo.pods))
  = [(Stdout, "nginx-1" ++ nl); (Stdout, "nginx-2" ++ nl)].
Proof. vm_compute. reflexivity. Qed.

(** * Further properties of the command *)

(** ** Panics *)

Section Panics.
Context {H : Handles} {X : Externals}.

Lemma bind_panic {A B} (m : M A) (k : A -> M B) w e w' t :
  m w = mkRun (Panic e) w' t -> bind m k w = mkRun (Panic e) w' t.
Proof. intros E. unfold bind. rewrite E. reflexivity. Qed.

Lemma bind_fails {A B} (m : M A) (k : A -> M B) w e :
  result (m w) = Raise e ->
  bind m k w = mkRun (Raise e) (final (m w)) (trace (m w)).
Proof. intros E. apply bind_raise. rewrite <- E. symmetry. apply run_eta. Qed.

Lemma unpanicked_bind {A B} (m : M A) (k : A -> M B) w :
  unpanicked (m w) ->
  (forall a w', unpanicked (k a w')) ->
  unpanicked (bind m k w).
Proof.
  intros Um Uk e. unfold bind.
  destruct (m w) as [[a|e'|e'] w' t] eqn:E; cbn.
  - apply Uk.
  - discriminate.
  - exfalso. apply (Um e'). reflexivity.
Qed.

Lemma unpanicked_call {A} (f : World -> A * World) (ev : A -> Event) w :
  unpanicked (call f ev w).
Proof. intros e. unfold call. destruct (f w). discriminate. Qed.

Lemma unpanicked_write s text w : unpanicked (write s text w).
Proof. intros e. discriminate. Qed.

Lemma unpanicked_ret {A} (a : A) w : unpanicked (ret a w).
Proof. intros e. discriminate. Qed.

Lemma unpanicked_raise {A} (e : error) w : unpanicked (@raise _ A e w).
Proof. intros e'. discriminate. Qed.

Lemma unpanicked_rangeLoop {A S} (body : S -> A -> M S) :
  (forall s x w, unpanicked (body s x w)) ->
  forall xs s w, unpanicked (rangeLoop body xs s w).
Proof.
  intros Ub. induction xs as [|x xs IH]; intros s w; simpl.
  - apply unpanicked_ret.
  - apply unpanicked_bind; auto.
Qed.
End Panics.

(** Splits a command into its steps, for a property of runs that [bind]
    keeps. *)
Ltac unpanicked_steps :=
  repeat first
    [ apply unpanicked_call
    | apply unpanicked_write
    | apply unpanicked_ret
    | apply unpanicked_raise
    | apply unpanicked_bind; [|intros]
    | match goal with
      | |- unpanicked (match ?r with _ => _ end _) => destruct r
      | |- unpanicked ((if ?b then _ else _) _) => destruct b
      end ].

Section PanicsOfCmd.
Context {H : Handles} {X : Externals}.

Lemma BuildResourceInterface_unpanicked flags name w :
  unpanicked (RegexMatch.BuildResourceInterface flags name w).
Proof. unfold RegexMatch.BuildResourceInterface. unpanicked_steps. Qed.

Lemma listItems_unpanicked flags name w :
  unpanicked (RegexMatch.listItems flags name w).
Proof.
  unfold RegexMatch.listItems.
  apply unpanicked_bind; [apply BuildResourceInterface_unpanicked|intros].
  unpanicked_steps.
Qed.

Lemma getCase_unpanicked re items w : unpanicked (getCase re items w).
Proof. rewrite getCase_run. intros e. discriminate. Qed.

Lemma deletePhase_unpanicked name matched w :
  unpanicked (RegexMatch.deletePhase name matched w).
Proof.
  unfold RegexMatch.deletePhase, RegexMatch.rebuildClient.
  unpanicked_steps.
  all: apply unpanicked_rangeLoop; intros [? ?] ? ?;
    unfold RegexMatch.deleteOne; unpanicked_steps.
Qed.

Lemma deleteCase_unpanicked flags name re items w :
  unpanicked (RegexMatch.deleteCase flags name re items w).
Proof.
  unfold RegexMatch.deleteCase. cbv zeta.
  destruct (List.length _ =? 0)%nat; [apply unpanicked_write|].
  apply unpanicked_bind; [rewrite displayMatches_run; intros e; discriminate|].
  intros _ w1. destruct (negb (autoYes flags)).
  - apply unpanicked_bind; [apply unpanicked_write|intros].
    apply unpanicked_bind; [apply unpanicked_call|intros c w2].
    destruct (negb _); [apply unpanicked_write|apply deletePhase_unpanicked].
  - apply deletePhase_unpanicked.
Qed.

(** X2. Through the subcommands, whose [Args] check runs before [RunE], the
    command panics in one case only: the pattern does not compile.  The
    [args[0]] of [runCmd] is never out of range there, and no failure of the
    cluster, of the configuration or of a delete call ends in a panic. *)
Theorem Execute_panics_on_pattern_only flags operation args w e :
  result (RegexMatch.Execute flags operation args w) = Panic e ->
  args <> []
  /\ exists msg, Compile (patternOf args) = Err msg /\ e = LibError msg.
Proof.
  rewrite Execute_result.
  destruct (ValidateArgs args) as [bad|] eqn:V; [discriminate|].
  apply ValidateArgs_ok in V.
  destruct args as [|name rest]; [simpl in V; lia|].
  unfold RegexMatch.runCmd. cbv zeta.
  destruct (Compile (patternOf (name :: rest))) as [re|msg].
  - intros P. exfalso. revert P.
    apply unpanicked_bind; [apply listItems_unpanicked|intros items w1].
    destruct (operation =? "get")%string; [apply getCase_unpanicked|].
    destruct (operation =? "delete")%string;
      [apply deleteCase_unpanicked|apply unpanicked_raise].
  - cbn. intros [= <-]. split; [discriminate|eauto].
Qed.
End PanicsOfCmd.

(** ** Failures before the operation is looked at *)

Section EarlyFailures.
Context {H : Handles} {X : Externals}.

Lemma listItems_of_failed_build flags name w e :
  result (RegexMatch.BuildResourceInterface flags name w) = Raise e ->
  RegexMatch.listItems flags name w
  = mkRun (Raise e)
          (final (RegexMatch.BuildResourceInterface flags name w))
          (trace (RegexMatch.BuildResourceInterface flags name w)).
Proof. intros R. unfold RegexMatch.listItems. now apply bind_fails. Qed.

(** X3. When [BuildResourceInterface] fails, the error is that of the first
    library call that failed, passed on as it is except for [ResourceFor],
    whose error is wrapped as an unknown resource; no call is made after the
    failing one.  [runCmd] returns this error for every operation, without
    listing and without writing anything. *)
Theorem BuildResourceInterface_failure flags name w e :
  result (RegexMatch.BuildResourceInterface flags name w) = Raise e ->
  let b := RegexMatch.BuildResourceInterface flags name w in
  ((exists msg,
       trace b = [EvToRESTConfig (Err msg)] /\ e = LibError msg)
   \/ (exists cfg msg,
          trace b = [EvToRESTConfig (Ok cfg); EvNewForConfig cfg (Err msg)]
          /\ e = LibError msg)
   \/ (exists cfg dyn msg,
          trace b = [EvToRESTConfig (Ok cfg); EvNewForConfig cfg (Ok dyn);
                     EvToRESTMapper (Err msg)]
          /\ e = LibError msg)
   \/ (exists cfg dyn m msg,
          trace b = [EvToRESTConfig (Ok cfg); EvNewForConfig cfg (Ok dyn);
                     EvToRESTMapper (Ok m); EvResourceFor m name (Err msg)]
          /\ e = UnknownResource name msg)
   \/ (exists cfg dyn m gvr msg,
          trace b = [EvToRESTConfig (Ok cfg); EvNewForConfig cfg (Ok dyn);
                     EvToRESTMapper (Ok m); EvResourceFor m name (Ok gvr);
                     EvNamespace (Err msg)]
          /\ e = LibError msg))
  /\ (forall rest re operation,
         Compile (patternOf (name :: rest)) = Ok re ->
         RegexMatch.runCmd flags (name :: rest) operation w
         = mkRun (Raise e) (final b) (trace b)).
Proof.
  intros R b. split.
  - subst b. revert R. unfold RegexMatch.BuildResourceInterface.
    step_call; [|cbn; intros [= <-]; left; eauto].
    step_call; [|cbn; intros [= <-]; right; left; eauto].
    step_call; [|cbn; intros [= <-]; right; right; left; eauto].
    step_call; [|cbn; intros [= <-]; right; right; right; left; eauto 6].
    step_call; [|cbn; intros [= <-]; right; right; right; right; eauto 7].
    destruct (_ || _ || _); cbn; discriminate.
  - intros rest re operation C. unfold RegexMatch.runCmd. cbv zeta. rewrite C.
    apply bind_raise. now apply listItems_of_failed_build.
Qed.

(** X4. When the listing itself fails, [runCmd] returns the error of [List]
    as it is, for every operation: the trace ends at the failed call, so no
    name is printed, nothing is asked and nothing is deleted. *)
Theorem listing_failure flags name rest re operation w ri w1 t1 msg w2 :
  Compile (patternOf (name :: rest)) = Ok re ->
  RegexMatch.BuildResourceInterface flags name w = mkRun (Val ri) w1 t1 ->
  List ri w1 = (Err msg, w2) ->
  RegexMatch.runCmd flags (name :: rest) operation w
  = mkRun (Raise (LibError msg)) w2 (t1 ++ [EvList ri (Err msg)]).
Proof.
  intros C B L. unfold RegexMatch.runCmd. cbv zeta. rewrite C.
  apply bind_raise. unfold RegexMatch.listItems.
  erewrite bind_val by exact B. erewrite bind_call by exact L. reflexivity.
Qed.

(** X5. An operation that is neither [get] nor [delete] is refused only
    after the accessor is built and the resources are listed: [runCmd] then
    returns the unknown-operation error (exit status 1) and has written
    nothing. *)
Theorem unknown_operation flags name rest re operation w items w1 t1 :
  Compile (patternOf (name :: rest)) = Ok re ->
  RegexMatch.listItems flags name w = mkRun (Val items) w1 t1 ->
  operation <> "get" ->
  operation <> "delete" ->
  let r := RegexMatch.runCmd flags (name :: rest) operation w in
  r = mkRun (Raise (UnknownOperation operation)) w1 t1
  /\ writes (trace r) = []
  /\ deleteCalls (trace r) = []
  /\ exitStatus (result r) = 1.
Proof.
  intros C L NG ND r.
  assert (R : r = mkRun (Raise (UnknownOperation operation)) w1 t1).
  { subst r. unfold RegexMatch.runCmd. cbv zeta. rewrite C.
    erewrite bind_val by exact L.
    apply String.eqb_neq in NG, ND. rewrite NG, ND. cbn.
    now rewrite app_nil_r. }
  pose proof (listItems_quiet flags name w) as (D & _ & W). rewrite L in D, W.
  rewrite R. cbn [result trace] in *. auto.
Qed.
End EarlyFailures.

(** ** What [get] never does *)

Section ReadOnly.
Context {H : Handles} {X : Externals}.

Lemma trace_bind (P : list Event -> Prop) {A B} (m : M A) (k : A -> M B) w :
  (forall a b, P a -> P b -> P (a ++ b)%list) ->
  P (trace (m w)) ->
  (forall a w', P (trace (k a w'))) ->
  P (trace (bind m k w)).
Proof.
  intros App Pm Pk. unfold bind.
  destruct (m w) as [[a|e|e] w' t]; cbn in *; auto.
Qed.

Lemma readOnly_app (a b : list Event) :
  readOnly a -> readOnly b -> readOnly (a ++ b).
Proof.
  intros (Da & Sa & Wa) (Db & Sb & Wb). unfold readOnly, printsOnly in *.
  rewrite deleteCalls_app, scans_app, writes_app, Da, Db, Sa, Sb.
  repeat split. apply Forall_app. auto.
Qed.

Lemma quiet_readOnly (tr : list Event) : quiet tr -> readOnly tr.
Proof.
  intros (D & S & W). unfold readOnly, printsOnly. rewrite W. auto.
Qed.

Lemma Regex_BuildResourceInterface_quiet name w :
  quiet (trace (Regex.BuildResourceInterface name w)).
Proof.
  unfold Regex.BuildResourceInterface.
  repeat (apply quiet_bind;
          [ try (apply quiet_call; intros; repeat split)
          | intros; try apply quiet_nil ]);
    repeat (match goal with
            | r : GoResult _ |- _ => destruct r
            | |- context [if ?b then _ else _] => destruct b
            end;
            try apply quiet_nil;
            try (apply quiet_bind;
                 [ apply quiet_call; intros; repeat split | intros ])).
Qed.

Lemma getCase_readOnly re items w : readOnly (trace (getCase re items w)).
Proof.
  rewrite getCase_run. cbn [trace].
  induction (filter _ items) as [|item l IH]; simpl.
  - repeat split. constructor.
  - destruct IH as (D & S & W). repeat split; auto.
    constructor; [reflexivity|exact W].
Qed.

(** X6. [get] only lists and prints: in either revision, whatever the flags,
    the arguments and the cluster, it issues no delete call, does not read
    the input stream, and writes to standard output alone (through
    [fmt.Println], not through the streams it is given). *)
Theorem get_is_read_only flags args w :
  (let r := RegexMatch.runCmd flags args "get" w in
   deleteCalls (trace r) = [] /\ scans (trace r) = []
   /\ Forall (fun wr => fst wr = Stdout) (writes (trace r)))
  /\ (let r := Regex.runCmd args "get" w in
      deleteCalls (trace r) = [] /\ scans (trace r) = []
      /\ Forall (fun wr => fst wr = Stdout) (writes (trace r))).
Proof.
  assert (Nil : readOnly []) by (repeat split; constructor).
  split; cbv zeta.
  - change (readOnly (trace (RegexMatch.runCmd flags args "get" w))).
    unfold RegexMatch.runCmd. cbv zeta.
    destruct args as [|name rest]; [exact Nil|].
    destruct (Compile _) as [re|msg]; [|exact Nil].
    apply (trace_bind readOnly); [apply readOnly_app| |].
    + apply quiet_readOnly, listItems_quiet.
    + intros items w1. cbn. apply getCase_readOnly.
  - change (readOnly (trace (Regex.runCmd args "get" w))).
    unfold Regex.runCmd. cbv zeta.
    destruct args as [|name rest]; [exact Nil|].
    destruct (Compile _) as [re|msg]; [|exact Nil].
    apply (trace_bind readOnly); [apply readOnly_app| |].
    + apply quiet_readOnly, Regex_BuildResourceInterface_quiet.
    + intros ri w1. apply (trace_bind readOnly); [apply readOnly_app| |].
      * unfold call. destruct (List ri w1). repeat split. constructor.
      * intros [items|msg] w2; [|exact Nil]. cbn. apply getCase_readOnly.
Qed.
End ReadOnly.

(** ** Every way through the [delete] case *)

Section Anatomy.
Context {H : Handles} {X : Externals}.

(** The [delete] case ends in one of three ways: nothing matched; the answer
    to the prompt was not [y]; or the deletion phase ran, after [--yes] or
    after an answer that lowers to [y]. *)
Lemma deleteCase_anatomy flags name re items w :
  let matched := RegexMatch.selectMatched re items in
  let dc := RegexMatch.deleteCase flags name re items w in
  (matched = []
   /\ dc = mkRun (Val tt) w
             [EvWrite Out ("No resources matched your pattern." ++ nl)])
  \/ (matched <> [] /\ autoYes flags = false
      /\ exists confirm w2,
           dc = mkRun (Val tt) w2
                  (displayEvents name matched
                   ++ [EvWrite Out (RegexMatch.promptLine (List.length matched));
                       EvScanln confirm;
                       EvWrite Out ("Aborted." ++ nl)]))
  \/ (matched <> []
      /\ exists pre w2,
           (pre = [] /\ autoYes flags = true
            \/ autoYes flags = false
               /\ exists confirm,
                    pre = [EvWrite Out (RegexMatch.promptLine (List.length matched));
                           EvScanln confirm])
           /\ dc = mkRun (result (RegexMatch.deletePhase name matched w2))
                         (final (RegexMatch.deletePhase name matched w2))
                         (displayEvents name matched ++ pre
                          ++ trace (RegexMatch.deletePhase name matched w2))).
Proof.
  cbv zeta. unfold RegexMatch.deleteCase. cbv zeta.
  destruct (RegexMatch.selectMatched re items) as [|m ms] eqn:E.
  - left. split; reflexivity.
  - right. cbn [List.length Nat.eqb].
    erewrite bind_val by apply displayMatches_run.
    destruct (autoYes flags) eqn:AY; cbn [negb].
    + right. split; [discriminate|]. exists [], w. split; [now left|].
      reflexivity.
    + destruct (Fscanln w) as [confirm w2] eqn:SC.
      rewrite bind_write. erewrite !bind_call by exact SC.
      cbn [result final trace].
      destruct (ToLower MapToLower confirm =? "y")%string; cbn [negb].
      * right. split; [discriminate|].
        exists [EvWrite Out (RegexMatch.promptLine (S (List.length ms)));
                EvScanln confirm], w2.
        split; [right; split; [reflexivity|]; now exists confirm|].
        reflexivity.
      * left. split; [discriminate|]. split; [reflexivity|].
        exists confirm, w2. reflexivity.
Qed.

(** The deletion phase attempts all the matches or none. *)
Lemma deletePhase_calls name matched w :
  let d := RegexMatch.deletePhase name matched w in
  deleteCalls (trace d) = []
  \/ exists dyn gvr outcomes,
       List.length outcomes = List.length matched
       /\ deleteCalls (trace d)
          = map (fun mo => (RegexMatch.targetRI (DynResource dyn gvr) (fst mo),
                            Name (fst mo), snd mo))
                (combine matched outcomes).
Proof.
  cbv zeta. pose proof (rebuildClient_quiet name w) as (Q & _).
  destruct (RegexMatch.rebuildClient name w) as [[[dyn gvr]|e|e] w3 t3] eqn:R;
    cbn [trace] in Q.
  - right. destruct (@deletePhase_run _ _ name matched _ _ _ _ _ R)
      as (outcomes & wf & Len & _ & D).
    exists dyn, gvr, outcomes. split; [exact Len|].
    rewrite D. cbn [trace].
    rewrite !deleteCalls_app, Q, deleteCalls_items. cbn. now rewrite app_nil_r.
  - left. unfold RegexMatch.deletePhase. erewrite bind_raise by exact R. exact Q.
  - left. unfold RegexMatch.deletePhase. erewrite bind_panic by exact R. exact Q.
Qed.

Lemma printsOnly_prompts (tr : list Event) : printsOnly tr -> prompts tr = [].
Proof.
  unfold printsOnly, prompts. induction (writes tr) as [|[s text] l IH];
    intros F; [reflexivity|].
  inversion F as [|? ? S F']. cbn in S. subst s. cbn. auto.
Qed.

(** X7. A run reads the input stream at most once, and only right after
    its one prompt.  The runs that ask are exactly the [delete] runs without
    [--yes] whose pattern compiled and whose listing succeeded and matched
    something: their trace is some events without prompt or read, then the
    prompt, then the read, then again events without prompt or read.  Every
    other run ([get], [--yes], no match, an early failure, an unknown
    operation) neither prompts nor reads. *)
Theorem asks_at_most_once flags args operation w :
  let r := RegexMatch.runCmd flags args operation w in
  (exists re items,
      MustConfirm flags args operation w re items
      /\ exists pre confirm post,
           trace r
           = (pre ++ [EvWrite Out
                        (RegexMatch.promptLine
                           (List.length (RegexMatch.selectMatched re items)));
                      EvScanln confirm] ++ post)%list
           /\ scans pre = [] /\ prompts pre = []
           /\ scans post = [] /\ prompts post = [])
  \/ ((forall re items, ~ MustConfirm flags args operation w re items)
      /\ scans (trace r) = [] /\ prompts (trace r) = []).
Proof.
  cbv zeta. unfold RegexMatch.runCmd. cbv zeta.
  destruct args as [|name rest].
  { right. split; [|split; reflexivity].
    intros re items (n & r & E & _). discriminate E. }
  destruct (Compile (patternOf (name :: rest))) as [re|msg] eqn:C.
  2:{ right. split; [|split; reflexivity].
      intros re items (n & r & _ & _ & _ & C' & _). congruence. }
  pose proof (listItems_quiet flags name w) as Q.
  apply quiet_unasked in Q. unfold bind.
  destruct (RegexMatch.listItems flags name w) as [[items|e|e] w1 t1] eqn:L;
    cbn [result final trace] in *.
  2,3: right; split; [|exact Q];
    intros re' items' (n & r & E & _ & _ & _ & L' & _);
    injection E as <- <-; rewrite L in L'; discriminate L'.
  destruct Q as (S1 & P1).
  assert (Same : forall re' items',
             MustConfirm flags (name :: rest) operation w re' items' ->
             operation = "delete" /\ autoYes flags = false
             /\ RegexMatch.selectMatched re items <> []).
  { intros re' items' (n & r & E & O & AY & C' & L' & NE).
    injection E as <- <-. rewrite L in L'. cbn in L'.
    rewrite C in C'. injection C' as <-. injection L' as <-. auto. }
  destruct (String.eqb_spec operation "get") as [-> | NG].
  { right. split.
    - intros re' items' M. apply Same in M. destruct M as (O & _). discriminate O.
    - pose proof (getCase_readOnly re items w1) as (_ & S & W).
      rewrite scans_app, prompts_app, S1, P1, S.
      rewrite (printsOnly_prompts W). split; reflexivity. }
  destruct (String.eqb_spec operation "delete") as [-> | ND].
  2:{ right. split.
      - intros re' items' M. apply Same in M. destruct M as (O & _). contradiction.
      - cbn. rewrite app_nil_r. split; assumption. }
  pose proof (displayEvents_unasked name (RegexMatch.selectMatched re items))
    as (S2 & P2).
  destruct (deleteCase_anatomy flags name re items w1)
    as [(N & ->) | [(NE & AY & confirm & w2 & ->) | (NE & pre & w2 & Pre & ->)]];
    cbn [trace].
  - right. split.
    + intros re' items' M. apply Same in M. destruct M as (_ & _ & NE).
      contradiction.
    + rewrite scans_app, prompts_app, S1, P1. split; reflexivity.
  - left. exists re, items. split.
    + exists name, rest. rewrite L. repeat split; auto.
    + exists (t1 ++ displayEvents name (RegexMatch.selectMatched re items))%list,
        confirm, [EvWrite Out ("Aborted." ++ nl)].
      split; [now rewrite <- !app_assoc|].
      rewrite scans_app, prompts_app, S1, P1, S2, P2.
      repeat split; reflexivity.
  - pose proof (deletePhase_unasked name (RegexMatch.selectMatched re items) w2)
      as (S3 & P3).
    destruct Pre as [(-> & AY) | (AY & confirm & ->)].
    + right. split.
      * intros re' items' M. apply Same in M. destruct M as (_ & AY' & _).
        congruence.
      * rewrite !scans_app, !prompts_app, S1, P1, S2, P2, S3, P3.
        split; reflexivity.
    + left. exists re, items. split.
      * exists name, rest. rewrite L. repeat split; auto.
      * exists (t1 ++ displayEvents name (RegexMatch.selectMatched re items))%list,
          confirm,
          (trace (RegexMatch.deletePhase name
                    (RegexMatch.selectMatched re items) w2)).
        split; [now rewrite <- !app_assoc|].
        rewrite scans_app, prompts_app, S1, P1, S2, P2.
        repeat split; auto.
Qed.

(** X8. A [delete] run attempts all or nothing: either it issues no delete
    call at all, or it issues exactly one per match, in the order of the
    match set, each under the name of its match and through the accessor
    taken for it.  No name is deleted that was not listed and matched. *)
Theorem delete_all_or_nothing flags name rest re w :
  Compile (patternOf (name :: rest)) = Ok re ->
  let r := RegexMatch.runCmd flags (name :: rest) "delete" w in
  deleteCalls (trace r) = []
  \/ exists items dyn gvr,
       result (RegexMatch.listItems flags name w) = Val items
       /\ map fst (deleteCalls (trace r))
          = map (fun m => (RegexMatch.targetRI (DynResource dyn gvr) m, Name m))
                (RegexMatch.selectMatched re items).
Proof.
  intros C. cbv zeta. unfold RegexMatch.runCmd. cbv zeta. rewrite C.
  pose proof (listItems_quiet flags name w) as (D1 & _).
  unfold bind.
  destruct (RegexMatch.listItems flags name w) as [[items|e|e] w1 t1];
    cbn [result final trace] in *; try (left; exact D1).
  rewrite deleteCalls_app, D1. cbn [app String.eqb Ascii.eqb Bool.eqb].
  pose proof (displayEvents_deleteCalls name (RegexMatch.selectMatched re items))
    as D2.
  destruct (deleteCase_anatomy flags name re items w1)
    as [(_ & ->) | [(_ & _ & confirm & w2 & ->) | (_ & pre & w2 & Pre & ->)]];
    cbn [trace].
  - left. reflexivity.
  - left. rewrite deleteCalls_app, D2. reflexivity.
  - assert (DP : deleteCalls pre = [])
      by (destruct Pre as [(-> & _) | (_ & confirm & ->)]; reflexivity).
    rewrite !deleteCalls_app, D2, DP. cbn [app].
    destruct (deletePhase_calls name (RegexMatch.selectMatched re items) w2)
      as [-> | (dyn & gvr & outcomes & Len & ->)]; [now left|].
    right. exists items, dyn, gvr. split; [reflexivity|].
    rewrite map_map. cbn [fst].
    transitivity
      (map (fun m => (RegexMatch.targetRI (DynResource dyn gvr) m, Name m))
           (map fst (combine (RegexMatch.selectMatched re items) outcomes))).
    + now rewrite map_map.
    + now rewrite (map_fst_combine_same _ outcomes Len).
Qed.
End Anatomy.

(** ** The earlier revision *)

Section Earlier.
Context {H : Handles} {X : Externals}.

(** The [delete] loop of the earlier revision: a delete call and a report
    line for each listed item whose name matches, and [nil] at the end. *)
Lemma Regex_deleteCase_run ri re items :
  forall w,
  exists outcomes wf,
    List.length outcomes
    = List.length (filter (fun item => MatchString re (GetName item)) items)
    /\ Regex.deleteCase ri re items w
       = mkRun (Val tt) wf
           (flat_map
              (fun io =>
                 [ EvDelete ri (GetName (fst io)) (snd io);
                   match snd io with
                   | Some e =>
                       EvWrite ErrOut ("Failed to delete " ++ GetName (fst io)
                                       ++ ": " ++ e ++ nl)
                   | None => EvWrite Out ("Deleted " ++ GetName (fst io) ++ nl)
                   end ])
              (combine (filter (fun item => MatchString re (GetName item)) items)
                       outcomes)).
Proof.
  unfold Regex.deleteCase, forEach.
  set (body := fun (_ : unit) (item : Item) => _).
  induction items as [|item items IH]; intros w; simpl rangeLoop.
  - exists [], w. split; reflexivity.
  - simpl filter. unfold body at 1. cbv beta zeta.
    destruct (MatchString re (GetName item)).
    + destruct (Delete ri (GetName item) w) as [o w1] eqn:E.
      destruct (IH w1) as (outcomes & wf & Len & Run).
      exists (o :: outcomes), wf. split; [simpl; now rewrite Len|].
      destruct o;
        (erewrite bind_val by (erewrite bind_call by exact E; reflexivity));
        unfold write; cbn [result final trace]; rewrite Run; reflexivity.
    + destruct (IH w) as (outcomes & wf & Len & Run).
      exists outcomes, wf. split; [exact Len|].
      erewrite bind_val by reflexivity. rewrite Run. reflexivity.
Qed.

(** X9. The earlier revision deletes without asking.  Once the listing has
    succeeded, [delete] issues one delete call per listed item whose name
    matches, through the accessor it listed with, and follows each call with
    its report, which gives the name alone: [Deleted name] on [Out] or
    [Failed to delete name: err] on [ErrOut].  It reads nothing and returns
    [nil] (exit status 0) whatever failed. *)
Theorem Regex_delete_unguarded name rest re w ri w1 t1 items w2 :
  Compile (patternOf (name :: rest)) = Ok re ->
  Regex.BuildResourceInterface name w = mkRun (Val ri) w1 t1 ->
  List ri w1 = (Ok items, w2) ->
  let r := Regex.runCmd (name :: rest) "delete" w in
  let hits := filter (fun item => MatchString re (GetName item)) items in
  exists outcomes,
    List.length outcomes = List.length hits
    /\ trace r
       = (t1 ++ EvList ri (Ok items)
             :: flat_map
                  (fun io =>
                     [ EvDelete ri (GetName (fst io)) (snd io);
                       match snd io with
                       | Some e =>
                           EvWrite ErrOut ("Failed to delete "
                                           ++ GetName (fst io)
                                           ++ ": " ++ e ++ nl)
                       | None =>
                           EvWrite Out ("Deleted " ++ GetName (fst io) ++ nl)
                       end ])
                  (combine hits outcomes))%list
    /\ scans (trace r) = []
    /\ result r = Val tt
    /\ exitStatus (result r) = 0.
Proof.
  intros C B L r hits.
  destruct (Regex_deleteCase_run ri re items w2) as (outcomes & wf & Len & Run).
  exists outcomes. split; [exact Len|].
  assert (R : r = mkRun (Val tt) wf
                    (t1 ++ EvList ri (Ok items) :: trace (Regex.deleteCase ri re items w2))).
  { subst r. unfold Regex.runCmd. cbv zeta. rewrite C.
    erewrite bind_val by exact B. erewrite bind_call by exact L.
    cbn. rewrite Run. reflexivity. }
  rewrite R, Run. cbn [result trace]. split; [reflexivity|].
  split; [|split; reflexivity].
  pose proof (Regex_BuildResourceInterface_quiet name w) as (_ & S & _).
  rewrite B in S. cbn [trace] in S.
  rewrite scans_app, S. cbn. fold hits.
  induction (combine hits outcomes) as [|[item o] l IH]; [reflexivity|].
  destruct o; exact IH.
Qed.

Lemma bind_assoc_run {A B C} (m : M A) (f : A -> M B) (g : B -> M C) w :
  bind (bind m f) g w = bind m (fun a => bind (f a) g) w.
Proof.
  unfold bind. destruct (m w) as [[a|e|e] w1 t1]; cbn; [|reflexivity..].
  destruct (f a w1) as [[b|e|e] w2 t2]; cbn; [|reflexivity..].
  now rewrite app_assoc.
Qed.

Lemma bind_ext_run {A B} (m m' : M A) (k k' : A -> M B) w :
  m w = m' w ->
  (forall a w', k a w' = k' a w') ->
  bind m k w = bind m' k' w.
Proof.
  intros Em Ek. unfold bind. rewrite Em.
  destruct (m' w) as [[a|e|e] w1 t1]; cbn; [|reflexivity..].
  now rewrite Ek.
Qed.

Lemma bind_ret_run {A B} (a : A) (k : A -> M B) w : bind (ret a) k w = k a w.
Proof. unfold bind, ret. cbn. apply run_eta. Qed.

(** X10. Without [--all-namespaces] the later revision resolves the scope
    as the earlier one did, call for call, and its [get] is the [get] of the
    earlier revision: same calls, same lines printed, same result. *)
Theorem revisions_agree_without_flag flags args name w :
  allNamespaces flags = false ->
  RegexMatch.BuildResourceInterface flags name w
  = Regex.BuildResourceInterface name w
  /\ RegexMatch.runCmd flags args "get" w = Regex.runCmd args "get" w.
Proof.
  intros A.
  assert (B : forall resource w0,
             RegexMatch.BuildResourceInterface flags resource w0
             = Regex.BuildResourceInterface resource w0).
  { intros resource w0.
    unfold RegexMatch.BuildResourceInterface, Regex.BuildResourceInterface.
    do 5 (step_call; [|reflexivity]).
    now rewrite A, orb_false_r. }
  split; [apply B|].
  unfold RegexMatch.runCmd, Regex.runCmd. cbv zeta.
  destruct args as [|resource rest]; [reflexivity|].
  destruct (Compile _) as [re|msg]; [|reflexivity].
  unfold RegexMatch.listItems. rewrite bind_assoc_run.
  apply bind_ext_run; [apply B|]. intros ri w1.
  rewrite bind_assoc_run. apply bind_ext_run; [reflexivity|].
  intros [items|msg] w2; [apply bind_ret_run|reflexivity].
Qed.
End Earlier.

(** ** The message for no match *)

Section NoMatch.
Context {H : Handles} {X : Externals}.

Lemma selectMatched_nil re items :
  RegexMatch.selectMatched re items = []
  <-> forall item, In item items -> MatchString re (GetName item) = false.
Proof.
  unfold RegexMatch.selectMatched. rewrite selectMatched_from. cbn [app].
  induction items as [|item items IH]; simpl.
  - split; [intros _ item []|reflexivity].
  - destruct (MatchString re (GetName item)) eqn:E; simpl; split.
    + discriminate.
    + intros All. rewrite (All item) in E by now left. discriminate.
    + intros N i [<- | I]; [exact E|]. now apply IH.
    + intros All. apply IH. intros i I. apply All. now right.
Qed.

Lemma writes_displayEvents name matched :
  writes (displayEvents name matched)
  = (Out, "The following " ++ name ++ " match your regex:" ++ nl)
    :: map (fun m => (Out, RegexMatch.displayLine m)) matched.
Proof.
  unfold displayEvents. cbn [writes]. f_equal.
  induction matched as [|m matched IH]; simpl; [|rewrite IH]; reflexivity.
Qed.

(** X11. [delete] answers that no resources matched, and stops, exactly when
    no listed item has a name the pattern matches.  When some item matches,
    what it writes begins with the header and the lines of the matches, one
    per match, in order. *)
Theorem no_match_message flags name re items w :
  ((forall item, In item items -> MatchString re (GetName item) = false)
   <-> RegexMatch.deleteCase flags name re items w
       = mkRun (Val tt) w
           [EvWrite Out ("No resources matched your pattern." ++ nl)])
  /\ ((exists item, In item items /\ MatchString re (GetName item) = true) ->
      exists more,
        writes (trace (RegexMatch.deleteCase flags name re items w))
        = (Out, "The following " ++ name ++ " match your regex:" ++ nl)
          :: (map (fun m => (Out, RegexMatch.displayLine m))
                  (RegexMatch.selectMatched re items)
              ++ more)%list).
Proof.
  split.
  - rewrite <- selectMatched_nil. split.
    + intros E. now apply deleteCase_empty.
    + intros E.
      destruct (deleteCase_anatomy flags name re items w)
        as [(N & _) | [(_ & _ & confirm & w2 & D) | (_ & pre & w2 & _ & D)]];
        [exact N| |];
        rewrite D in E; apply (f_equal (@trace _ _)) in E;
        cbn in E; discriminate E.
  - intros (item & I & Hit).
    assert (NE : RegexMatch.selectMatched re items <> []).
    { intros N. rewrite selectMatched_nil in N.
      rewrite (N item I) in Hit. discriminate Hit. }
    destruct (deleteCase_anatomy flags name re items w)
      as [(N & _) | [(_ & _ & confirm & w2 & ->) | (_ & pre & w2 & _ & ->)]];
      [contradiction| |]; cbn [trace];
      rewrite writes_app, writes_displayEvents; eexists; reflexivity.
Qed.
End NoMatch.

(** ** More runs on the small cluster *)

(** The one panic: [(] as the pattern. *)
Lemma Execute_panics_on_pattern_only_witness :
  exists msg,
    @Compile Demo.handles Demo.externals (patternOf ["pods"; "("]) = Err msg
    /\ LibError "error parsing regexp: missing closing ): `(`" = LibError msg.
Proof.
  apply (@Execute_panics_on_pattern_only Demo.handles Demo.externals
           (mkFlags false false) "delete" ["pods"; "("]
           (Demo.cluster [] [] [])).
  vm_compute. reflexivity.
Defined.

(** The cluster has no resource type [widgets]. *)
Lemma BuildResourceInterface_failure_witness :
  @RegexMatch.runCmd Demo.handles Demo.externals (mkFlags false false)
    ["widgets"; "app"] "delete" (Demo.cluster ["y"] [] [])
  = @mkRun Demo.handles unit
      (Raise (UnknownResource "widgets" "no matches for /, Resource=widgets"))
      (final (@RegexMatch.BuildResourceInterface Demo.handles Demo.externals
                (mkFlags false false) "widgets" (Demo.cluster ["y"] [] [])))
      (trace (@RegexMatch.BuildResourceInterface Demo.handles Demo.externals
                (mkFlags false false) "widgets" (Demo.cluster ["y"] [] []))).
Proof.
  refine (proj2 (@BuildResourceInterface_failure Demo.handles Demo.externals
                   (mkFlags false false) "widgets" (Demo.cluster ["y"] [] [])
                   _ _) ["app"] "app" "delete" _).
  - vm_compute. reflexivity.
  - reflexivity.
Defined.

(** The connection drops at the listing (library call number 5). *)
Lemma listing_failure_witness :
  result (Demo.run (mkFlags false false) ["cm"; "app"] "get"
                   (Demo.cluster [] [5%nat] []))
  = Raise (LibError "connection refused")
  /\ writes (trace (Demo.run (mkFlags false false) ["cm"; "app"] "get"
                             (Demo.cluster [] [5%nat] [])))
     = [].
Proof.
  eassert (B : @RegexMatch.BuildResourceInterface Demo.handles Demo.externals
                 (mkFlags false false) "cm" (Demo.cluster [] [5%nat] [])
               = mkRun (Val _) _ _)
    by (vm_compute; reflexivity).
  eassert (R : Demo.run (mkFlags false false) ["cm"; "app"] "get"
                        (Demo.cluster [] [5%nat] []) = _).
  { refine (@listing_failure Demo.handles Demo.externals (mkFlags false false)
              "cm" ["app"] "app" "get" _ _ _ _ "connection refused" _ _ B _).
    - reflexivity.
    - vm_compute. reflexivity. }
  rewrite R. split; reflexivity.
Defined.

(** [patch] is no operation of the command. *)
Lemma unknown_operation_witness :
  result (Demo.run (mkFlags false false) ["cm"; "app"] "patch"
                   (Demo.cluster [] [] []))
  = Raise (UnknownOperation "patch")
  /\ writes (trace (Demo.run (mkFlags false false) ["cm"; "app"] "patch"
                             (Demo.cluster [] [] [])))
     = []
  /\ exitStatus (result (Demo.run (mkFlags false false) ["cm"; "app"] "patch"
                                  (Demo.cluster [] [] [])))
     = 1.
Proof.
  edestruct (@unknown_operation Demo.handles Demo.externals)
    with (flags := mkFlags false false) (name := "cm") (rest := ["app"])
         (operation := "patch") (w := Demo.cluster [] [] [])
    as (R & W & _ & E).
  - vm_compute. reflexivity.
  - vm_compute. reflexivity.
  - discriminate.
  - discriminate.
  - split; [|split; [exact W|exact E]].
    unfold Demo.run. rewrite R. reflexivity.
Defined.

(** A batch under [--yes] with one refusal: all or nothing, here all. *)
Lemma delete_all_or_nothing_witness :
  deleteCalls (trace (Demo.run (mkFlags false true) ["cm"; "app"] "delete"
                               (Demo.cluster [] [] ["app-b"])))
  = []
  \/ exists items dyn gvr,
       result (@RegexMatch.listItems Demo.handles Demo.externals
                 (mkFlags false true) "cm" (Demo.cluster [] [] ["app-b"]))
       = Val items
       /\ map fst (deleteCalls
                     (trace (Demo.run (mkFlags false true) ["cm"; "app"]
                               "delete" (Demo.cluster [] [] ["app-b"]))))
          = map (fun m => (RegexMatch.targetRI (DynResource dyn gvr) m, Name m))
                (@RegexMatch.selectMatched Demo.handles Demo.externals
                   "app" items).
Proof.
  apply (@delete_all_or_nothing Demo.handles Demo.externals
           (mkFlags false true) "cm" ["app"] "app"
           (Demo.cluster [] [] ["app-b"])).
  reflexivity.
Defined.

(** The earlier revision on the same cluster: no prompt, [app-a] deleted,
    [app-b] refused, [nil] returned. *)
Lemma Regex_delete_unguarded_witness :
  exists outcomes,
    List.length outcomes = 2%nat
    /\ writes (trace (@Regex.runCmd Demo.handles Demo.externals
                        ["cm"; "app"] "delete" (Demo.cluster [] [] ["app-b"])))
       = map (fun io =>
                match snd io with
                | Some e => (ErrOut, "Failed to delete " ++ Name (fst io)
                                      ++ ": " ++ e ++ nl)
                | None => (Out, "Deleted " ++ Name (fst io) ++ nl)
                end)
             (combine [mkRef "foo" "app-a"; mkRef "foo" "app-b"] outcomes)
    /\ result (@Regex.runCmd Demo.handles Demo.externals
                 ["cm"; "app"] "delete" (Demo.cluster [] [] ["app-b"]))
       = Val tt.
Proof.
  eassert (B : @Regex.BuildResourceInterface Demo.handles Demo.externals
                 "cm" (Demo.cluster [] [] ["app-b"])
               = mkRun (Val _) _ _)
    by (vm_compute; reflexivity).
  lazymatch type of B with
  | _ = mkRun (Val ?ri) ?w1 _ =>
      eassert (L : @List Demo.handles Demo.externals ri w1 = (Ok _, _))
        by (vm_compute; reflexivity)
  end.
  destruct (@Regex_delete_unguarded Demo.handles Demo.externals
              "cm" ["app"] "app" _ _ _ _ _ _ eq_refl B L)
    as (outcomes & Len & T & _ & R & _).
  exists outcomes. split; [exact Len|]. split; [|exact R].
  rewrite T. clear T R. vm_compute in Len.
  destruct outcomes as [|o1 [|o2 [|o3 l]]]; try discriminate Len.
  destruct o1, o2; reflexivity.
Defined.

(** Without the flag, the two revisions build the same accessor and run the
    same [get]. *)
Lemma revisions_agree_without_flag_witness :
  @RegexMatch.runCmd Demo.handles Demo.externals (mkFlags false false)
    ["pods"; "^nginx-"] "get" Demo.pods
  = @Regex.runCmd Demo.handles Demo.externals ["pods"; "^nginx-"] "get"
      Demo.pods.
Proof.
  apply (@revisions_agree_without_flag Demo.handles Demo.externals
           (mkFlags false false) ["pods"; "^nginx-"] "pods" Demo.pods).
  reflexivity.
Defined.
